(** * fast-db-searcher: the NL2SQL pipeline and the batch route classifier

    A shallow embedding of [nl2sql_converter.py], [router.py],
    [utils/helper.py] and [utils/prompt.py].

    The two scripts are glue around three outside parties: the sqlite3
    driver, a hosted chat model and the semantic router.  Each of them is
    an oracle over an abstract state of the outside world; the scripts
    themselves are written in a small exception-and-state monad that keeps
    a trace of what was done to the outside world, which is what the
    properties below talk about. *)

From Stdlib Require Import String Ascii List ZArith Lia Bool Arith.
From Stdlib Require Import DecimalString DecimalZ DecimalPos DecimalFacts Decimal.
From Stdlib Require Import NArith SpecFloat.
Import ListNotations.
Local Open Scope list_scope.
Local Open Scope string_scope.

Set Implicit Arguments.
Set Warnings "-register-all".

(** ** Python exceptions

    Only the class of an exception matters to the [except] clauses of the
    sources: [sqlite3.Error], [json.JSONDecodeError], and the catch-all
    [Exception].  [BaseExceptionOnly] stands for [KeyboardInterrupt],
    [SystemExit] and the like, which [except Exception] lets through. *)

Inductive exn : Type :=
| SqliteError (msg : string)
| JSONDecodeError
| KeyError (key : string)
| TypeError
| IndexError
| ValueError
| NameError (name : string)
| FileNotFoundError (path : string)
| OtherException (name : string)
| BaseExceptionOnly (name : string).

Definition is_sqlite_error (e : exn) : bool :=
  match e with SqliteError _ => true | _ => false end.

Definition is_json_decode_error (e : exn) : bool :=
  match e with JSONDecodeError => true | _ => false end.

Definition is_Exception (e : exn) : bool :=
  match e with BaseExceptionOnly _ => false | _ => true end.

Inductive outcome (A : Type) : Type :=
| Ok (a : A)
| Raise (e : exn).

Arguments Ok {A} a.
Arguments Raise {A} e.

Definition is_ok {A} (r : outcome A) : bool :=
  match r with Ok _ => true | Raise _ => false end.

Definition outcome_map {A B} (f : A -> B) (r : outcome A) : outcome B :=
  match r with Ok a => Ok (f a) | Raise e => Raise e end.

(** ** Strings *)

Definition nl : string := String (ascii_of_nat 10) EmptyString.
Definition dq : string := String (ascii_of_nat 34) EmptyString.

(** [needle] occurs literally inside [hay]. *)
Definition occurs_in (needle hay : string) : Prop :=
  exists pre post, hay = pre ++ needle ++ post.

Fixpoint lookup {V : Type} (k : string) (kvs : list (string * V)) : option V :=
  match kvs with
  | [] => None
  | (k', v) :: rest => if String.eqb k k' then Some v else lookup k rest
  end.

(** A Python [str] is held as the bytes of its UTF-8 encoding, so that the
    texts written in this file are what they look like.  The encoding is
    taken in its generalised form, in which a surrogate code point has the
    three bytes its value gives: a [str] may hold surrogates on their
    own.  Equal strings have equal bytes, the bytes of a concatenation are
    the concatenation of the bytes, and one text occurs inside another
    exactly when its bytes do. *)

Module Utf8.

Local Open Scope N_scope.

Definition byte (n : N) : ascii := ascii_of_N n.

(** The bytes of one code point. *)
Definition encode (cp : N) : list ascii :=
  if cp <? 128 then [byte cp]
  else if cp <? 2048 then [byte (192 + cp / 64); byte (128 + cp mod 64)]
  else if cp <? 65536 then
    [byte (224 + cp / 4096); byte (128 + (cp / 64) mod 64);
     byte (128 + cp mod 64)]
  else
    [byte (240 + cp / 262144); byte (128 + (cp / 4096) mod 64);
     byte (128 + (cp / 64) mod 64); byte (128 + cp mod 64)].

(** The six bits a continuation byte carries. *)
Definition continuation (c : ascii) : option N :=
  let n := N_of_ascii c in
  if (128 <=? n) && (n <? 192) then Some (n - 128) else None.

(** The code points of a text; [None] for bytes that are no text: a stray
    or missing continuation byte, an encoding longer than needed, a code
    point from 1114112 on. *)
Fixpoint decode (s : list ascii) : option (list N) :=
  match s with
  | [] => Some []
  | b0 :: r0 =>
      let n0 := N_of_ascii b0 in
      if n0 <? 128 then option_map (cons n0) (decode r0)
      else if n0 <? 192 then None
      else if n0 <? 224 then
        match r0 with
        | b1 :: r1 =>
            match continuation b1 with
            | Some c1 =>
                let cp := (n0 - 192) * 64 + c1 in
                if 128 <=? cp then option_map (cons cp) (decode r1)
                else None
            | None => None
            end
        | _ => None
        end
      else if n0 <? 240 then
        match r0 with
        | b1 :: b2 :: r2 =>
            match continuation b1, continuation b2 with
            | Some c1, Some c2 =>
                let cp := (n0 - 224) * 4096 + c1 * 64 + c2 in
                if 2048 <=? cp then option_map (cons cp) (decode r2)
                else None
            | _, _ => None
            end
        | _ => None
        end
      else if n0 <? 248 then
        match r0 with
        | b1 :: b2 :: b3 :: r3 =>
            match continuation b1, continuation b2, continuation b3 with
            | Some c1, Some c2, Some c3 =>
                let cp := (n0 - 240) * 262144 + c1 * 4096 + c2 * 64 + c3 in
                if (65536 <=? cp) && (cp <? 1114112)
                then option_map (cons cp) (decode r3)
                else None
            | _, _, _ => None
            end
        | _ => None
        end
      else None
  end.

(** The high and the low surrogates. *)
Definition high (cp : N) : bool := (55296 <=? cp) && (cp <? 56320).
Definition low (cp : N) : bool := (56320 <=? cp) && (cp <? 57344).

(** A Unicode scalar value: a code point that is no surrogate. *)
Definition scalar (cp : N) : bool := negb (high cp || low cp).

(** The bytes are a [str]. *)
Definition valid (s : string) : bool :=
  match decode (list_ascii_of_string s) with
  | Some _ => true
  | None => false
  end.

(** The bytes are a [str] of Unicode scalar values, that is, text as
    Unicode defines it: no surrogate occurs in it. *)
Definition scalar_text (s : string) : bool :=
  match decode (list_ascii_of_string s) with
  | Some cps => forallb scalar cps
  | None => false
  end.

(** The characters of a text, one [str] each, as iterating over a [str]
    gives them. *)
Fixpoint characters (s : list ascii) : list (list ascii) :=
  match s with
  | [] => []
  | b0 :: r0 =>
      let n0 := N_of_ascii b0 in
      if n0 <? 224 then
        if n0 <? 192 then [b0] :: characters r0
        else match r0 with
             | b1 :: r1 => [b0; b1] :: characters r1
             | _ => [[b0]]
             end
      else if n0 <? 240 then
        match r0 with
        | b1 :: b2 :: r2 => [b0; b1; b2] :: characters r2
        | _ => [s]
        end
      else
        match r0 with
        | b1 :: b2 :: b3 :: r3 => [b0; b1; b2; b3] :: characters r3
        | _ => [s]
        end
  end.

End Utf8.

(** ** [str.format]

    The fragment of Python's [str.format] the template needs: literal text,
    the escapes [{{] and [}}], and replacement fields [{name}] looked up
    among the keyword arguments.  The template is scanned once, left to
    right; text substituted for a field is never scanned again.  The
    keyword arguments carry the values already converted by [str()], as
    [format(value, '')] does for a field without a format spec.
    Conversions, format specs and positional fields do not occur in the
    template and are not modelled: the whole text between the braces is
    the key. *)

Module Format.

Inductive state : Type :=
| Text
| AfterOpen
| InField (rev_name : list ascii)
| AfterClose.

Definition open_brace : ascii := ascii_of_nat 123.
Definition close_brace : ascii := ascii_of_nat 125.

Definition name_of (rev_name : list ascii) : string :=
  string_of_list_ascii (List.rev rev_name).

Fixpoint scan (kwargs : list (string * string)) (st : state) (s : string)
  : outcome string :=
  match s with
  | EmptyString =>
      match st with
      | Text => Ok EmptyString
      | _ => Raise ValueError
      end
  | String c s' =>
      match st with
      | Text =>
          if Ascii.eqb c open_brace then scan kwargs AfterOpen s'
          else if Ascii.eqb c close_brace then scan kwargs AfterClose s'
          else outcome_map (String c) (scan kwargs Text s')
      | AfterOpen =>
          if Ascii.eqb c open_brace
          then outcome_map (String open_brace) (scan kwargs Text s')
          else if Ascii.eqb c close_brace
          then match lookup EmptyString kwargs with
               | None => Raise (KeyError EmptyString)
               | Some v => outcome_map (append v) (scan kwargs Text s')
               end
          else scan kwargs (InField [c]) s'
      | InField acc =>
          if Ascii.eqb c close_brace
          then match lookup (name_of acc) kwargs with
               | None => Raise (KeyError (name_of acc))
               | Some v => outcome_map (append v) (scan kwargs Text s')
               end
          else scan kwargs (InField (c :: acc)) s'
      | AfterClose =>
          if Ascii.eqb c close_brace
          then outcome_map (String close_brace) (scan kwargs Text s')
          else Raise ValueError
      end
  end.

Definition format (template : string) (kwargs : list (string * string))
  : outcome string :=
  scan kwargs Text template.

End Format.

(** ** utils/prompt.py *)

Definition NL2SQL_PROMPT : string :=
  String.concat nl
    [ EmptyString
    ; "You are a software engineer specialized in converting natural language query to SQL query. Follow closely the provided instructions. "
    ; EmptyString
    ; "# Instructions"
    ; "- Always look up closely to the 'database info' section before converting the natural language query into a SQL query"
    ; "- Always follow the provided output format"
    ; "- ONLY include the SQL query to the user in your response"
    ; EmptyString
    ; "# Database info"
    ; "<column_info table_name=" ++ dq ++ "{table_name}" ++ dq ++ ">"
    ; "Info about the columns of the table:"
    ; "{column_info}"
    ; "</column_info>"
    ; EmptyString
    ; "<table_sample table_name=" ++ dq ++ "{table_name}" ++ dq ++ ">"
    ; "The first three rows of the table:"
    ; "{table_sample}"
    ; "</table_sample>"
    ; EmptyString
    ; "# Output format"
    ; "Always provide the response according to the following output format:"
    ; "{{" ++ dq ++ "sql_query" ++ dq ++ ": <sql_query>}}"
    ; EmptyString
    ; "# Natural language query"
    ; "{nl_query}"
    ; EmptyString ].

(** ** Python values

    What [json.loads] can return and what the scripts pass around: [None],
    booleans, integers, floats, strings, lists and dictionaries.  A float
    is a binary64 number, with its infinities and its NaN.  A dictionary
    is an association list in insertion order, as Python keeps it. *)

Inductive value : Type :=
| VNone
| VBool (b : bool)
| VInt (z : Z)
| VStr (s : string)
| VList (items : list value)
| VDict (members : list (string * value))
| VFloat (x : spec_float).

(** [bool(v)], the test an [if v:] performs. *)
Definition truthy (v : value) : bool :=
  match v with
  | VNone => false
  | VBool b => b
  | VInt z => negb (Z.eqb z 0)
  | VStr s => negb (String.eqb s EmptyString)
  | VList items => match items with [] => false | _ => true end
  | VDict members => match members with [] => false | _ => true end
  | VFloat x => match x with S754_zero _ => false | _ => true end
  end.

(** [v[key]] for a string [key]. *)
Definition getitem (v : value) (key : string) : outcome value :=
  match v with
  | VDict members =>
      match lookup key members with
      | Some x => Ok x
      | None => Raise (KeyError key)
      end
  | _ => Raise TypeError
  end.

(** [iter(v)]: a list yields its items, a dictionary its keys, a string its
    characters; the other values are not iterable. *)
Definition iterate (v : value) : outcome (list value) :=
  match v with
  | VList items => Ok items
  | VDict members => Ok (map (fun kv => VStr (fst kv)) members)
  | VStr s =>
      Ok (map (fun c => VStr (string_of_list_ascii c))
            (Utf8.characters (list_ascii_of_string s)))
  | _ => Raise TypeError
  end.

(** ** SQLite rows *)

Inductive sqlval : Type :=
| SqlNull
| SqlInt (z : Z)
| SqlText (s : string)
| SqlBlob (bytes : list ascii).

Definition row : Type := list sqlval.

(** [row[i]] on a tuple. *)
Definition tuple_get (r : row) (i : nat) : outcome sqlval :=
  match nth_error r i with
  | Some x => Ok x
  | None => Raise IndexError
  end.

(** The dictionary [get_column_info] builds for one column. *)
Record column_descriptor : Type := ColumnDescriptor {
  column_id : sqlval;
  name : sqlval;
  type : sqlval
}.

(** ** The outside world *)

Inductive printed : Type :=
| PResponse (response : option string)
| PDecodeError
| PSqliteError (e : exn)
| PUnexpected (e : exn)
| PResultHeader
| PRow (r : row).

Inductive event : Type :=
| Connect (path : string) (opened : bool)
| Cursor (ok : bool)
| Execute (sql : string) (ok : bool)
| Fetchall (ok : bool)
| Close
| Completion (prompt : string) (ok : bool)
| Print (p : printed)
| RouterSetup (ok : bool)
| Classify (text : value) (ok : bool)
| ReadFile (path : string) (ok : bool)
| WriteFile (path : string) (content : string).

(** The libraries and services the scripts call.  [X] is the state of
    everything outside the process (database file, remote services); each
    call may change it and may raise.  [json_loads] answers [None] when
    [json.loads] raises, and [json_loads_error] is then what it raises:
    [JSONDecodeError] for a text that is not JSON, but also
    [RecursionError] for a text nested too deep and [ValueError] for an
    integer of too many digits.  [json_dumps] is
    [json.dumps(_, indent=4)];
    [str_of_column_info] and [str_of_rows] are Python's [str()] on the two
    non-string arguments of the prompt. *)
Record Outside (X : Type) : Type := {
  sqlite_connect : string -> X -> outcome unit * X;
  sqlite_cursor : X -> outcome unit * X;
  sqlite_execute : string -> X -> outcome unit * X;
  sqlite_fetchall : X -> outcome (list row) * X;
  sqlite_close : X -> X;
  chat_completion : string -> string -> X -> outcome (option string) * X;
  json_loads : string -> option value;
  json_loads_error : string -> exn;
  json_dumps : value -> string;
  str_of_column_info : option (list column_descriptor) -> string;
  str_of_rows : list row -> string;
  router_setup : X -> outcome unit * X;
  router_call : value -> X -> outcome (option string) * X
}.

Record world (X : Type) : Type := World {
  outside : X;
  open_connections : nat;
  files : string -> option string
}.

(** ** The monad of the scripts: state, exceptions, and a log of events *)

Record ran (X A : Type) : Type := Ran {
  result : outcome A;
  after : world X;
  emitted : list event
}.

Definition M (X A : Type) : Type := world X -> ran X A.

Definition ret {X A} (a : A) : M X A :=
  fun w => Ran (Ok a) w [].

Definition raise {X A} (e : exn) : M X A :=
  fun w => Ran (Raise e) w [].

Definition bind {X A B} (c : M X A) (k : A -> M X B) : M X B :=
  fun w =>
    match c w with
    | Ran (Ok a) w1 evs1 =>
        match k a w1 with
        | Ran r w2 evs2 => Ran r w2 (evs1 ++ evs2)%list
        end
    | Ran (Raise e) w1 evs1 => Ran (Raise e) w1 evs1
    end.

Notation "x <- c ;; k" := (bind c (fun x => k))
  (at level 61, c at next level, right associativity).
Notation "c ;; k" := (bind c (fun _ => k))
  (at level 61, right associativity).

Definition lift {X A} (r : outcome A) : M X A :=
  match r with Ok a => ret a | Raise e => raise e end.

Definition emit {X} (e : event) : M X unit :=
  fun w => Ran (Ok tt) w [e].

(** [print(...)].  Standard output is taken to accept the text: a
    [print] that fails (a closed stream, text the stream's encoding cannot
    hold) is outside the model, as is everything that would follow it. *)
Definition print {X} (p : printed) : M X unit := emit (Print p).

(** [try: body except C1: h1 except C2: h2 ...]: the first clause whose
    class matches handles the exception; an exception raised by a handler
    is not caught by its siblings. *)
Fixpoint handler_for {X A} (clauses : list ((exn -> bool) * (exn -> M X A)))
  (e : exn) : option (M X A) :=
  match clauses with
  | [] => None
  | (catches, h) :: rest =>
      if catches e then Some (h e) else handler_for rest e
  end.

Definition try_except {X A} (body : M X A)
  (clauses : list ((exn -> bool) * (exn -> M X A))) : M X A :=
  fun w =>
    match body w with
    | Ran (Ok a) w1 evs1 => Ran (Ok a) w1 evs1
    | Ran (Raise e) w1 evs1 =>
        match handler_for clauses e with
        | None => Ran (Raise e) w1 evs1
        | Some h =>
            match h w1 with
            | Ran r w2 evs2 => Ran r w2 (evs1 ++ evs2)%list
            end
        end
    end.

(** [for x in xs: body x] *)
Fixpoint for_each {X A} (xs : list A) (body : A -> M X unit) : M X unit :=
  match xs with
  | [] => ret tt
  | x :: rest => body x ;; for_each rest body
  end.

Section Scripts.

Context {X : Type} (O : Outside X).

(** *** sqlite3 *)

Definition connect (path : string) : M X unit :=
  fun w =>
    let '(r, x) := sqlite_connect O path (outside w) in
    Ran r
        (World x
           (if is_ok r then S (open_connections w) else open_connections w)
           (files w))
        [Connect path (is_ok r)].

Definition cursor : M X unit :=
  fun w =>
    let '(r, x) := sqlite_cursor O (outside w) in
    Ran r (World x (open_connections w) (files w)) [Cursor (is_ok r)].

Definition execute (sql : string) : M X unit :=
  fun w =>
    let '(r, x) := sqlite_execute O sql (outside w) in
    Ran r (World x (open_connections w) (files w)) [Execute sql (is_ok r)].

Definition fetchall : M X (list row) :=
  fun w =>
    let '(r, x) := sqlite_fetchall O (outside w) in
    Ran r (World x (open_connections w) (files w)) [Fetchall (is_ok r)].

Definition close : M X unit :=
  fun w =>
    Ran (Ok tt)
        (World (sqlite_close O (outside w))
           (Nat.pred (open_connections w))
           (files w))
        [Close].

(** *** utils/helper.py *)

Definition describe (r : row) : outcome column_descriptor :=
  match tuple_get r 0, tuple_get r 1, tuple_get r 2 with
  | Ok c, Ok n, Ok t => Ok (ColumnDescriptor c n t)
  | Raise e, _, _ => Raise e
  | _, Raise e, _ => Raise e
  | _, _, Raise e => Raise e
  end.

Fixpoint describe_all (schema_info : list row)
  : outcome (list column_descriptor) :=
  match schema_info with
  | [] => Ok []
  | r :: rest =>
      match describe r with
      | Raise e => Raise e
      | Ok d => outcome_map (cons d) (describe_all rest)
      end
  end.

Definition get_column_info (db_file table_name : string)
  : M X (option (list column_descriptor)) :=
  try_except
    (connect db_file ;;
     cursor ;;
     execute ("PRAGMA table_info('" ++ table_name ++ "')") ;;
     schema_info <- fetchall ;;
     close ;;
     column_details <- lift (describe_all schema_info) ;;
     ret (Some column_details))
    [ (is_sqlite_error, fun e => print (PSqliteError e) ;; ret None)
    ; (is_Exception, fun e => print (PUnexpected e) ;; ret None) ].

Definition get_table_sample (db_file table_name : string)
  : M X (list row) :=
  try_except
    (connect db_file ;;
     cursor ;;
     execute ("SELECT * FROM " ++ table_name ++ " LIMIT 3") ;;
     first_three <- fetchall ;;
     close ;;
     ret first_three)
    [ (is_sqlite_error, fun e => print (PSqliteError e) ;; ret [])
    ; (is_Exception, fun e => print (PUnexpected e) ;; ret []) ].

(** *** nl2sql_converter.py *)

Definition cars_queries : list string :=
  [ "What are the engine specifications for Vortex X1?"
  ; "Who between Vortex X1 and Avalon S has the highest fuel consumption?" ].

Definition countries_queries : list string :=
  [ "What's the most common animal in Italy?"
  ; "How many habitants does Egypt have?" ].

Definition db_path : string := "data/data.db".

Definition list_get {A} (xs : list A) (i : nat) : outcome A :=
  match nth_error xs i with
  | Some x => Ok x
  | None => Raise IndexError
  end.

(** The variables the [if]/[elif] on the topic binds; neither branch
    runs for any other topic and the names stay unbound. *)
Record database_info : Type := DatabaseInfo {
  table_name : string;
  column_info : option (list column_descriptor);
  table_sample : list row;
  nl_query : string
}.

Definition get_database_info (topic : string) : M X (option database_info) :=
  if String.eqb topic "cars" then
    ci <- get_column_info db_path "cars_data" ;;
    ts <- get_table_sample db_path "cars_data" ;;
    q <- lift (list_get cars_queries 1) ;;
    ret (Some (DatabaseInfo "cars_data" ci ts q))
  else if String.eqb topic "countries" then
    ci <- get_column_info db_path "countries_data" ;;
    ts <- get_table_sample db_path "countries_data" ;;
    q <- lift (list_get countries_queries 1) ;;
    ret (Some (DatabaseInfo "countries_data" ci ts q))
  else ret None.

(** [NL2SQL_PROMPT.format(table_name=..., table_sample=...,
    column_info=..., nl_query=...)] *)
Definition build_prompt (tn : string)
  (ci : option (list column_descriptor)) (ts : list row) (q : string)
  : outcome string :=
  Format.format NL2SQL_PROMPT
    [ ("table_name", tn)
    ; ("table_sample", str_of_rows O ts)
    ; ("column_info", str_of_column_info O ci)
    ; ("nl_query", q) ].

Definition model_id : string := "meta-llama/llama-3.3-8b-instruct:free".

(** Building the client and asking for one completion. *)
Definition invoke_llm (prompt : string) : M X (option string) :=
  fun w =>
    let '(r, x) := chat_completion O model_id prompt (outside w) in
    Ran r (World x (open_connections w) (files w))
        [Completion prompt (is_ok r)].

(** [json.loads(response)]: a response that is not text is a [TypeError]. *)
Definition loads (response : option string) : outcome value :=
  match response with
  | None => Raise TypeError
  | Some text =>
      match json_loads O text with
      | Some v => Ok v
      | None => Raise (json_loads_error O text)
      end
  end.

(** Lines 64-73: the value bound to [sql_query]. *)
Definition extract_sql_query (response : option string) : M X value :=
  try_except
    (response_dictionary <- lift (loads response) ;;
     lift (getitem response_dictionary "sql_query"))
    [ (is_json_decode_error, fun e => print PDecodeError ;; ret VNone) ].

(** [cursor.execute(sql_query)]: the driver wants a string. *)
Definition execute_value (sql_query : value) : M X unit :=
  match sql_query with
  | VStr sql => execute sql
  | _ => raise TypeError
  end.

(** Lines 76-87. *)
Definition run_sql_query (sql_query : value) : M X unit :=
  if truthy sql_query then
    try_except
      (connect db_path ;;
       cursor ;;
       execute_value sql_query ;;
       rows <- fetchall ;;
       print PResultHeader ;;
       for_each rows (fun r => print (PRow r)) ;;
       close)
      [ (is_sqlite_error, fun e => print (PSqliteError e)) ]
  else ret tt.

(** Lines 60-87: what the script does with the model's reply; the value
    returned is the final binding of [sql_query]. *)
Definition handle_response (response : option string) : M X value :=
  print (PResponse response) ;;
  sql_query <- extract_sql_query response ;;
  run_sql_query sql_query ;;
  ret sql_query.

Definition nl2sql_converter (topic : string) : M X value :=
  info <- get_database_info topic ;;
  match info with
  | None => raise (NameError "table_name")
  | Some i =>
      prompt <- lift (build_prompt (table_name i) (column_info i)
                        (table_sample i) (nl_query i)) ;;
      response <- invoke_llm prompt ;;
      handle_response response
  end.

Definition TOPIC_TO_TEST : string := "countries".

(** *** router.py *)

(** Lines 9-19: the encoder, the two routes and the router. *)
Definition setup_router : M X unit :=
  fun w =>
    let '(r, x) := router_setup O (outside w) in
    Ran r (World x (open_connections w) (files w)) [RouterSetup (is_ok r)].

(** [rl(text).name] *)
Definition call_router (text : value) : M X (option string) :=
  fun w =>
    let '(r, x) := router_call O text (outside w) in
    Ran r (World x (open_connections w) (files w)) [Classify text (is_ok r)].

Definition read_file (path : string) : M X string :=
  fun w =>
    match files w path with
    | Some content => Ran (Ok content) w [ReadFile path true]
    | None => Ran (Raise (FileNotFoundError path)) w [ReadFile path false]
    end.

(** [with open(path, "w") as file: file.write(content)]; opening a file
    for writing is taken to succeed. *)
Definition write_file (path content : string) : M X unit :=
  fun w =>
    Ran (Ok tt)
        (World (outside w) (open_connections w)
           (fun p => if String.eqb p path then Some content else files w p))
        [WriteFile path content].

Definition route_value (route : option string) : value :=
  match route with
  | Some n => VStr n
  | None => VNone
  end.

(** One turn of the loop of lines 28-38: the record appended to the
    report. *)
Definition classify_record (query : value) : M X value :=
  text <- lift (getitem query "query") ;;
  route <- call_router text ;;
  q <- lift (getitem query "query") ;;
  c <- lift (getitem query "category") ;;
  ret (VDict [ ("query", q); ("category", c); ("route", route_value route) ]).

Fixpoint build_report (queries report : list value) : M X (list value) :=
  match queries with
  | [] => ret report
  | query :: rest =>
      assignment <- classify_record query ;;
      build_report rest (report ++ [assignment])%list
  end.

Definition router_py : M X unit :=
  setup_router ;;
  text <- read_file "queries.json" ;;
  queries <- lift (loads (Some text)) ;;
  records <- lift (iterate queries) ;;
  report <- build_report records [] ;;
  write_file "report.json" (json_dumps O (VList report)).

End Scripts.

(** ** The Utterance Router's decision *)

Module Router.

Record route : Type := Route {
  route_name : string;
  utterances : list string
}.

Section Decision.

(** Similarity scores with their comparison [geb s t], read [s >= t],
    and the similarity of a query to the aggregated representation of
    a route's utterances under a fixed embedding. *)
Variable score : Type.
Variable geb : score -> score -> bool.
Variable similarity : string -> route -> score.

(** Modelled from the spec: the semantic router itself is a library
    that is not part of the sources; section 4.5 gives its decision:
    select the route with the highest similarity.  Among equally
    similar routes the first declared wins. *)
Fixpoint nearest (query : string) (routes : list route)
  : option (route * score) :=
  match routes with
  | [] => None
  | r :: rest =>
      match nearest query rest with
      | None => Some (r, similarity query r)
      | Some (r', s') =>
          if geb (similarity query r) s'
          then Some (r, similarity query r)
          else Some (r', s')
      end
  end.

(** Modelled from the spec: the router of section 4.5, which is not
    part of the sources: return the nearest route's name only if its
    similarity is at least the threshold, otherwise no match. *)
Definition classify (threshold : score) (routes : list route)
  (query : string) : option string :=
  match nearest query routes with
  | None => None
  | Some (r, s) => if geb s threshold then Some (route_name r) else None
  end.

End Decision.

End Router.

(** ** The [json] module

    [json.dumps(_, indent=n)] with its defaults ([ensure_ascii], separators
    [","] and [": "]) and [json.loads], as CPython's encoder and scanner
    define them.  The decoder follows the scanner: the same whitespace,
    the same escapes with their surrogate pairs, strict control
    characters, the constants [NaN], [Infinity] and [-Infinity] that the
    scanner accepts beyond JSON, the last of several equal keys wins.

    The model is partial where the library's answer is beyond it or
    depends on the interpreter, and says so: the decoder answers
    [Unmodelled] on a number with a fraction or an exponent (a float
    other than the three constants), on an integer of more than
    [digit_limit] digits ([ValueError] since Python 3.11) and on nesting
    that may exceed the recursion limit ([RecursionError]); [in_model]
    tells the values whose text the encoder gives. *)

Module Json.

Definition chars : Type := list ascii.

Definition lit (s : string) : chars := list_ascii_of_string s.

Definition quote : ascii := ascii_of_nat 34.
Definition backslash : ascii := ascii_of_nat 92.

(** Nesting up to which the interpreter's recursion limit is out of reach,
    and the digits an integer may have. *)
Definition depth_limit : nat := 100.
Definition digit_limit : nat := 4300.

Fixpoint depth (v : value) : nat :=
  match v with
  | VList items => S (fold_right (fun x d => Nat.max (depth x) d) 0 items)
  | VDict members =>
      S (fold_right (fun kv d => Nat.max (depth (snd kv)) d) 0 members)
  | _ => 0
  end.

(** The digits of an integer, without its sign. *)
Definition int_digits (z : Z) : nat :=
  match Z.to_int z with
  | Decimal.Pos u => nb_digits u
  | Decimal.Neg u => nb_digits u
  end.

(** *** Encoding *)

Definition hex_digit (n : N) : ascii :=
  nth (N.to_nat n) (lit "0123456789abcdef") "0"%char.

(** [\uXXXX] for a number below 65536. *)
Definition u_escape (n : N) : chars :=
  [ backslash; "u"%char;
    hex_digit (n / 4096); hex_digit ((n / 256) mod 16);
    hex_digit ((n / 16) mod 16); hex_digit (n mod 16) ]%N.

(** One character of a string, as [ensure_ascii] writes it. *)
Definition escape (cp : N) : chars :=
  (if cp =? 34 then [backslash; quote]
   else if cp =? 92 then [backslash; backslash]
   else if cp =? 8 then [backslash; "b"%char]
   else if cp =? 12 then [backslash; "f"%char]
   else if cp =? 10 then [backslash; "n"%char]
   else if cp =? 13 then [backslash; "r"%char]
   else if cp =? 9 then [backslash; "t"%char]
   else if (32 <=? cp) && (cp <=? 126) then [ascii_of_N cp]
   else if cp <? 65536 then u_escape cp
   else (u_escape (55296 + (cp - 65536) / 1024)
           ++ u_escape (56320 + (cp - 65536) mod 1024))%list)%N.

(** Bytes that are no [str] are beyond the model; see [in_model]. *)
Definition encode_string (s : string) : chars :=
  match Utf8.decode (list_ascii_of_string s) with
  | Some cps => quote :: (flat_map escape cps ++ [quote])%list
  | None => []
  end.

Definition encode_int (z : Z) : chars :=
  lit (NilZero.string_of_int (Z.to_int z)).

(** The constants and the zeros; the text of any other float, its
    shortest [repr], is beyond the model; see [in_model]. *)
Definition encode_float (x : spec_float) : chars :=
  match x with
  | S754_nan => lit "NaN"
  | S754_infinity false => lit "Infinity"
  | S754_infinity true => lit "-Infinity"
  | S754_zero false => lit "0.0"
  | S754_zero true => lit "-0.0"
  | S754_finite _ _ _ => []
  end.

Definition newline_indent (indent level : nat) : chars :=
  ascii_of_nat 10 :: repeat " "%char (indent * level).

Fixpoint encode (indent level : nat) (v : value) : chars :=
  match v with
  | VNone => lit "null"
  | VBool true => lit "true"
  | VBool false => lit "false"
  | VInt z => encode_int z
  | VFloat x => encode_float x
  | VStr s => encode_string s
  | VList [] => lit "[]"
  | VList (x :: xs) =>
      ("["%char :: newline_indent indent (S level)
         ++ encode indent (S level) x
         ++ flat_map
              (fun y =>
                 ","%char :: newline_indent indent (S level)
                   ++ encode indent (S level) y)
              xs
         ++ newline_indent indent level ++ ["]"%char])%list
  | VDict [] => lit "{}"
  | VDict ((k, x) :: kvs) =>
      ("{"%char :: newline_indent indent (S level)
         ++ encode_string k ++ lit ": " ++ encode indent (S level) x
         ++ flat_map
              (fun kv =>
                 ","%char :: newline_indent indent (S level)
                   ++ encode_string (fst kv) ++ lit ": "
                   ++ encode indent (S level) (snd kv))
              kvs
         ++ newline_indent indent level ++ ["}"%char])%list
  end.

(** [json.dumps(v, indent=indent)], for the values of [in_model]. *)
Definition dumps (indent : nat) (v : value) : string :=
  string_of_list_ascii (encode indent 0 v).

(** The values whose text [dumps] gives: every string in them is a
    [str], no float is finite and not zero, no integer has more than
    [digit_limit] digits. *)
Fixpoint modelled (v : value) : bool :=
  match v with
  | VNone => true
  | VBool _ => true
  | VInt z => Nat.leb (int_digits z) digit_limit
  | VFloat x => match x with S754_finite _ _ _ => false | _ => true end
  | VStr s => Utf8.valid s
  | VList items => forallb modelled items
  | VDict members =>
      forallb (fun kv => Utf8.valid (fst kv) && modelled (snd kv)) members
  end.

Definition in_model (v : value) : bool :=
  modelled v && Nat.leb (depth v) depth_limit.

(** *** Decoding *)

(** What the model says of a text: the value [json.loads] returns, that
    [json.loads] raises [JSONDecodeError], or that the answer is beyond
    the model. *)
Inductive parsed (A : Type) : Type :=
| Decoded (a : A)
| Invalid
| Unmodelled.

Arguments Decoded {A} a.
Arguments Invalid {A}.
Arguments Unmodelled {A}.

Definition is_ws (c : ascii) : bool :=
  let n := nat_of_ascii c in
  Nat.eqb n 32 || Nat.eqb n 9 || Nat.eqb n 10 || Nat.eqb n 13.

Fixpoint skip_ws (s : chars) : chars :=
  match s with
  | [] => []
  | c :: r => if is_ws c then skip_ws r else s
  end.

Fixpoint strip_prefix (p s : chars) : option chars :=
  match p with
  | [] => Some s
  | a :: p' =>
      match s with
      | [] => None
      | b :: s' => if Ascii.eqb a b then strip_prefix p' s' else None
      end
  end.

Definition hex_value (c : ascii) : option N :=
  let n := N_of_ascii c in
  (if (48 <=? n) && (n <=? 57) then Some (n - 48)
   else if (97 <=? n) && (n <=? 102) then Some (n - 87)
   else if (65 <=? n) && (n <=? 70) then Some (n - 55)
   else None)%N.

Definition hex4 (a b c d : ascii) : option N :=
  match hex_value a, hex_value b, hex_value c, hex_value d with
  | Some x, Some y, Some z, Some t =>
      Some (((x * 16 + y) * 16 + z) * 16 + t)%N
  | _, _, _, _ => None
  end.

Definition push {A B} (a : A) (r : option (list A * B)) : option (list A * B) :=
  match r with
  | Some (l, b) => Some (a :: l, b)
  | None => None
  end.

Definition push_all {A B} (l : list A) (r : option (list A * B))
  : option (list A * B) :=
  match r with
  | Some (l', b) => Some ((l ++ l')%list, b)
  | None => None
  end.

(** The text of a string, read from just after its opening quote.  A
    [\u] escape of a high surrogate that is followed by a [\u] escape of
    a low surrogate is read with it, as one character. *)
Fixpoint scan_string (s : chars) : option (chars * chars) :=
  match s with
  | [] => None
  | c :: r =>
      if Ascii.eqb c quote then Some ([], r)
      else if Ascii.eqb c backslash then
        match r with
        | [] => None
        | e :: r1 =>
            if Ascii.eqb e quote then push quote (scan_string r1)
            else if Ascii.eqb e backslash then push backslash (scan_string r1)
            else if Ascii.eqb e "/"%char then push "/"%char (scan_string r1)
            else if Ascii.eqb e "b"%char then push (ascii_of_nat 8) (scan_string r1)
            else if Ascii.eqb e "f"%char then push (ascii_of_nat 12) (scan_string r1)
            else if Ascii.eqb e "n"%char then push (ascii_of_nat 10) (scan_string r1)
            else if Ascii.eqb e "r"%char then push (ascii_of_nat 13) (scan_string r1)
            else if Ascii.eqb e "t"%char then push (ascii_of_nat 9) (scan_string r1)
            else if Ascii.eqb e "u"%char then
              match r1 with
              | h1 :: h2 :: h3 :: h4 :: r2 =>
                  match hex4 h1 h2 h3 h4 with
                  | Some n =>
                      if Utf8.high n then
                        match r2 with
                        | b :: u :: k1 :: k2 :: k3 :: k4 :: r3 =>
                            if Ascii.eqb b backslash && Ascii.eqb u "u"%char
                            then
                              match hex4 k1 k2 k3 k4 with
                              | Some m =>
                                  if Utf8.low m
                                  then push_all
                                         (Utf8.encode
                                            (65536 + (n - 55296) * 1024
                                             + (m - 56320))%N)
                                         (scan_string r3)
                                  else push_all (Utf8.encode n)
                                         (scan_string r2)
                              | None => None
                              end
                            else push_all (Utf8.encode n) (scan_string r2)
                        | _ => push_all (Utf8.encode n) (scan_string r2)
                        end
                      else push_all (Utf8.encode n) (scan_string r2)
                  | None => None
                  end
              | _ => None
              end
            else None
        end
      else if Nat.ltb (nat_of_ascii c) 32 then None
      else push c (scan_string r)
  end.

Definition digit_of (c : ascii) : option (uint -> uint) :=
  let n := nat_of_ascii c in
  if Nat.eqb n 48 then Some D0
  else if Nat.eqb n 49 then Some D1
  else if Nat.eqb n 50 then Some D2
  else if Nat.eqb n 51 then Some D3
  else if Nat.eqb n 52 then Some D4
  else if Nat.eqb n 53 then Some D5
  else if Nat.eqb n 54 then Some D6
  else if Nat.eqb n 55 then Some D7
  else if Nat.eqb n 56 then Some D8
  else if Nat.eqb n 57 then Some D9
  else None.

Fixpoint scan_digits (s : chars) : uint * chars :=
  match s with
  | [] => (Nil, [])
  | c :: r =>
      match digit_of c with
      | Some d => let (u, r') := scan_digits r in (d u, r')
      | None => (Nil, s)
      end
  end.

(** The integer part of the number grammar: [0] or a digit from 1 to 9
    followed by digits. *)
Definition canonical (u : uint) : bool :=
  match u with
  | Nil => false
  | D0 Nil => true
  | D0 _ => false
  | _ => true
  end.

(** What may start the fraction or the exponent of a float. *)
Definition starts_float (s : chars) : bool :=
  match s with
  | [] => false
  | c :: _ =>
      Ascii.eqb c "."%char || Ascii.eqb c "e"%char || Ascii.eqb c "E"%char
  end.

(** A number: an integer, unless a fraction or an exponent may follow or
    the digits are too many. *)
Definition parse_int (s : chars) : parsed (Z * chars) :=
  match s with
  | [] => Invalid
  | c :: r =>
      let negative := Ascii.eqb c "-"%char in
      let (u, r') := scan_digits (if negative then r else s) in
      if negb (canonical u) then Invalid
      else if starts_float r' then Unmodelled
      else if Nat.ltb digit_limit (nb_digits u) then Unmodelled
      else Decoded (if negative then Z.opp (Z.of_uint u) else Z.of_uint u, r')
  end.

(** [d[k] = v] on a dictionary. *)
Fixpoint dict_set (d : list (string * value)) (k : string) (v : value)
  : list (string * value) :=
  match d with
  | [] => [(k, v)]
  | (k', v') :: rest =>
      if String.eqb k k' then (k', v) :: rest
      else (k', v') :: dict_set rest k v
  end.

Definition dict_of_pairs (pairs : list (string * value))
  : list (string * value) :=
  fold_left (fun d kv => dict_set d (fst kv) (snd kv)) pairs [].

Definition with_value (f : value) (r : option chars)
  : parsed (value * chars) :=
  match r with
  | Some r' => Decoded (f, r')
  | None => Invalid
  end.

Definition add_item {A B} (a : A) (r : parsed (list A * B))
  : parsed (list A * B) :=
  match r with
  | Decoded (l, b) => Decoded (a :: l, b)
  | Invalid => Invalid
  | Unmodelled => Unmodelled
  end.

Fixpoint parse_value (fuel : nat) (s : chars) {struct fuel}
  : parsed (value * chars) :=
  match fuel with
  | O => Invalid
  | S n =>
      match s with
      | [] => Invalid
      | c :: r =>
          if Ascii.eqb c quote then
            match scan_string r with
            | Some (cs, r') => Decoded (VStr (string_of_list_ascii cs), r')
            | None => Invalid
            end
          else if Ascii.eqb c "["%char then
            match skip_ws r with
            | [] => Invalid
            | c' :: r' =>
                if Ascii.eqb c' "]"%char then Decoded (VList [], r')
                else match parse_items n (c' :: r') with
                     | Decoded (items, r'') => Decoded (VList items, r'')
                     | Invalid => Invalid
                     | Unmodelled => Unmodelled
                     end
            end
          else if Ascii.eqb c "{"%char then
            match skip_ws r with
            | [] => Invalid
            | c' :: r' =>
                if Ascii.eqb c' "}"%char then Decoded (VDict [], r')
                else match parse_members n (c' :: r') with
                     | Decoded (pairs, r'') =>
                         Decoded (VDict (dict_of_pairs pairs), r'')
                     | Invalid => Invalid
                     | Unmodelled => Unmodelled
                     end
            end
          else if Ascii.eqb c "n"%char
          then with_value VNone (strip_prefix (lit "ull") r)
          else if Ascii.eqb c "t"%char
          then with_value (VBool true) (strip_prefix (lit "rue") r)
          else if Ascii.eqb c "f"%char
          then with_value (VBool false) (strip_prefix (lit "alse") r)
          else if Ascii.eqb c "N"%char
          then with_value (VFloat S754_nan) (strip_prefix (lit "aN") r)
          else if Ascii.eqb c "I"%char
          then with_value (VFloat (S754_infinity false))
                 (strip_prefix (lit "nfinity") r)
          else match strip_prefix (lit "-Infinity") s with
               | Some r' => Decoded (VFloat (S754_infinity true), r')
               | None =>
                   match parse_int s with
                   | Decoded (z, r') => Decoded (VInt z, r')
                   | Invalid => Invalid
                   | Unmodelled => Unmodelled
                   end
               end
      end
  end

with parse_items (fuel : nat) (s : chars) {struct fuel}
  : parsed (list value * chars) :=
  match fuel with
  | O => Invalid
  | S n =>
      match parse_value n s with
      | Invalid => Invalid
      | Unmodelled => Unmodelled
      | Decoded (v, r) =>
          match skip_ws r with
          | [] => Invalid
          | c :: r' =>
              if Ascii.eqb c "]"%char then Decoded ([v], r')
              else if Ascii.eqb c ","%char
              then add_item v (parse_items n (skip_ws r'))
              else Invalid
          end
      end
  end

with parse_members (fuel : nat) (s : chars) {struct fuel}
  : parsed (list (string * value) * chars) :=
  match fuel with
  | O => Invalid
  | S n =>
      match s with
      | [] => Invalid
      | c :: r =>
          if Ascii.eqb c quote then
            match scan_string r with
            | None => Invalid
            | Some (k, r1) =>
                match skip_ws r1 with
                | [] => Invalid
                | c1 :: r2 =>
                    if Ascii.eqb c1 ":"%char then
                      match parse_value n (skip_ws r2) with
                      | Invalid => Invalid
                      | Unmodelled => Unmodelled
                      | Decoded (v, r3) =>
                          match skip_ws r3 with
                          | [] => Invalid
                          | c2 :: r4 =>
                              if Ascii.eqb c2 "}"%char
                              then Decoded ([(string_of_list_ascii k, v)], r4)
                              else if Ascii.eqb c2 ","%char
                              then add_item (string_of_list_ascii k, v)
                                     (parse_members n (skip_ws r4))
                              else Invalid
                          end
                      end
                    else Invalid
                end
            end
          else Invalid
      end
  end.

(** How many arrays and objects a text opens at most. *)
Definition opens (s : chars) : nat :=
  List.length
    (filter (fun c => Ascii.eqb c "["%char || Ascii.eqb c "{"%char) s).

(** [json.loads(text)].  The fuel is more than a text can use. *)
Definition loads (text : string) : parsed value :=
  let s := list_ascii_of_string text in
  match parse_value (S (List.length s)) (skip_ws s) with
  | Decoded (v, r) =>
      if Nat.leb (depth v) depth_limit then
        match skip_ws r with
        | [] => Decoded v
        | _ :: _ => Invalid
        end
      else Unmodelled
  | Invalid => if Nat.leb (opens s) depth_limit then Invalid else Unmodelled
  | Unmodelled => Unmodelled
  end.

End Json.

(** ** A reference outside world

    One small world to run the scripts in: a database file at
    [data/data.db] holding the table [countries_data], a chat model that
    always gives the same reply, a [json] library that is the [Json]
    module above wherever that answers (and refuses the texts beyond it),
    and a router built from [Router.classify] with scores in
    hundredths. *)

Module Reference.

(** The rows the last statement left for [fetchall]. *)
Record state : Type := State { result_set : list row }.

Definition countries_schema : list row :=
  [ [SqlInt 0; SqlText "country"; SqlText "TEXT"; SqlInt 0; SqlNull; SqlInt 0]
  ; [SqlInt 1; SqlText "population"; SqlText "INTEGER"; SqlInt 0; SqlNull; SqlInt 0]
  ; [SqlInt 2; SqlText "animal"; SqlText "TEXT"; SqlInt 0; SqlNull; SqlInt 0] ].

Definition countries_rows : list row :=
  [ [SqlText "Italy"; SqlInt 59000000; SqlText "wolf"]
  ; [SqlText "Egypt"; SqlInt 109000000; SqlText "eagle"] ].

(** A table whose name holds a quote, as SQLite allows. *)
Definition notes_schema : list row :=
  [ [SqlInt 0; SqlText "title"; SqlText "TEXT"; SqlInt 0; SqlNull; SqlInt 0]
  ; [SqlInt 1; SqlText "body"; SqlText "TEXT"; SqlInt 0; SqlNull; SqlInt 0] ].

(** The tables of the database, each with what [PRAGMA table_info] says of
    it and its first rows. *)
Definition tables : list (string * (list row * list row)) :=
  [ ("countries_data", (countries_schema, countries_rows))
  ; ("it's", (notes_schema, [])) ].

(** The columns of a table of the database. *)
Definition columns_of (table : string) : option (list row) :=
  option_map fst (lookup table tables).

Definition apostrophe : ascii := ascii_of_nat 39.

(** An SQL string literal, read from just after its opening quote: its
    text and what follows it.  A doubled quote stands for a quote. *)
Fixpoint sql_literal (s : string) : option (string * string) :=
  match s with
  | EmptyString => None
  | String c r =>
      if Ascii.eqb c apostrophe then
        match r with
        | String c' r' =>
            if Ascii.eqb c' apostrophe
            then match sql_literal r' with
                 | Some (text, rest) => Some (String apostrophe text, rest)
                 | None => None
                 end
            else Some (EmptyString, r)
        | EmptyString => Some (EmptyString, EmptyString)
        end
      else match sql_literal r with
           | Some (text, rest) => Some (String c text, rest)
           | None => None
           end
  end.

Fixpoint after_prefix (p s : string) : option string :=
  match p with
  | EmptyString => Some s
  | String a p' =>
      match s with
      | EmptyString => None
      | String b s' => if Ascii.eqb a b then after_prefix p' s' else None
      end
  end.

(** What the database answers to a statement: the rows of [table_info]
    for a table named in a string literal (none for a table that does not
    exist), the sample of the table [countries_data], the row of
    [SELECT 1]; an error for anything else. *)
Definition answer (sql : string) : outcome (list row) :=
  match after_prefix "PRAGMA table_info('" sql with
  | Some argument =>
      match sql_literal argument with
      | Some (table, rest) =>
          if String.eqb rest ")"
          then match columns_of table with
               | Some rows => Ok rows
               | None => Ok []
               end
          else Raise (SqliteError "syntax error")
      | None => Raise (SqliteError "unrecognized token")
      end
  | None =>
      if String.eqb sql "SELECT * FROM countries_data LIMIT 3"
      then Ok countries_rows
      else if String.eqb sql "SELECT 1"
      then Ok [[SqlInt 1]]
      else Raise (SqliteError "no such table")
  end.

Definition routes : list Router.route :=
  [ Router.Route "cars" ["engine"; "fuel consumption"]
  ; Router.Route "countries" ["population"; "capital city"] ].

(** A toy similarity, in hundredths: 90 for a query that is one of the
    route's utterances, 5 otherwise. *)
Definition similarity (query : string) (r : Router.route) : Z :=
  if existsb (String.eqb query) (Router.utterances r) then 90%Z else 5%Z.

Definition threshold : Z := 16.

Definition outside (reply : option string) (outage : string -> bool)
  : Outside state := {|
  sqlite_connect path x :=
    if String.eqb path "data/data.db" then (Ok tt, x)
    else (Raise (SqliteError "unable to open database file"), x);
  sqlite_cursor x := (Ok tt, x);
  sqlite_execute sql x :=
    match answer sql with
    | Ok rows => (Ok tt, State rows)
    | Raise e => (Raise e, x)
    end;
  sqlite_fetchall x := (Ok (result_set x), State []);
  sqlite_close x := x;
  chat_completion _ _ x := (Ok reply, x);
  json_loads text :=
    match Json.loads text with
    | Json.Decoded v => Some v
    | _ => None
    end;
  json_loads_error _ := JSONDecodeError;
  json_dumps := Json.dumps 4;
  str_of_column_info _ := "[...]";
  str_of_rows _ := "[...]";
  router_setup x := (Ok tt, x);
  router_call text x :=
    match text with
    | VStr query =>
        if outage query then (Raise (OtherException "APIConnectionError"), x)
        else (Ok (Router.classify Z.geb similarity threshold routes query), x)
    | _ => (Raise (OtherException "ValidationError"), x)
    end
|}.

Definition no_outage (query : string) : bool := false.

Definition no_files (path : string) : option string := None.

Definition start : world state := World (State []) 0 no_files.

(** The outside world with a silent model and a router that answers. *)
Definition plain : Outside state := outside None no_outage.

(** A reply of the model that carries the SQL text [sql]. *)
Definition reply_with (sql : string) : string :=
  Json.dumps 4 (VDict [ ("sql_query", VStr sql) ]).

(** An input file of two records, and a world that holds it. *)
Definition queries : list value :=
  [ VDict [ ("query", VStr "engine"); ("category", VStr "cars") ]
  ; VDict [ ("query", VStr "tallest mountain"); ("category", VStr "countries") ] ].

Definition queries_json : string := Json.dumps 4 (VList queries).

Definition input_files (path : string) : option string :=
  if String.eqb path "queries.json" then Some queries_json else None.

Definition batch_start : world state := World (State []) 0 input_files.

(** A router whose service is down for one query. *)
Definition outage_on (down query : string) : bool := String.eqb query down.

Definition failing : Outside state :=
  outside None (outage_on "tallest mountain").

(** A world whose input file holds [text]. *)
Definition holding (text : string) : world state :=
  World (State []) 0
    (fun path => if String.eqb path "queries.json" then Some text else None).

(** What the router of [outside] answers on a text. *)
Definition answer_of (text : value) : option string :=
  match text with
  | VStr query => Router.classify Z.geb similarity threshold routes query
  | _ => None
  end.

(** The same parties when the database file cannot be opened. *)
Definition offline : Outside state := {|
  sqlite_connect _ x := (Raise (SqliteError "unable to open database file"), x);
  sqlite_cursor := sqlite_cursor plain;
  sqlite_execute := sqlite_execute plain;
  sqlite_fetchall := sqlite_fetchall plain;
  sqlite_close := sqlite_close plain;
  chat_completion := chat_completion plain;
  json_loads := json_loads plain;
  json_loads_error := json_loads_error plain;
  json_dumps := json_dumps plain;
  str_of_column_info := str_of_column_info plain;
  str_of_rows := str_of_rows plain;
  router_setup := router_setup plain;
  router_call := router_call plain
|}.

(** Two replies that are not JSON and that [json.loads] decodes. *)
Definition nan_reply : string := "NaN".

Definition nan_query_reply : string :=
  Json.dumps 4 (VDict [ ("sql_query", VFloat S754_nan) ]).



(** The report of the two records when the router answers. *)
Definition report : list value :=
  [ VDict [ ("query", VStr "engine"); ("category", VStr "cars");
            ("route", VStr "cars") ]
  ; VDict [ ("query", VStr "tallest mountain"); ("category", VStr "countries");
            ("route", VNone) ] ].

End Reference.

(** ** Vocabulary of the properties *)

(** [key in v] for a decoded reply. *)
Definition has_key (v : value) (key : string) : bool :=
  match v with
  | VDict members =>
      match lookup key members with
      | Some _ => true
      | None => false
      end
  | _ => false
  end.

(** The SQL texts handed to [cursor.execute], in order. *)
Definition executions (evs : list event) : list string :=
  flat_map (fun e => match e with Execute sql _ => [sql] | _ => [] end) evs.

(** How many times [sqlite3.connect] was called. *)
Definition connections (evs : list event) : nat :=
  length (filter (fun e => match e with Connect _ _ => true | _ => false end)
            evs).


Definition closed (evs : list event) : bool :=
  existsb (fun e => match e with Close => true | _ => false end) evs.


(** The texts handed to the router, in order. *)
Definition classified (evs : list event) : list value :=
  flat_map (fun e => match e with Classify t _ => [t] | _ => [] end) evs.

(** The prompts sent to the chat model, in order. *)
Definition completions (evs : list event) : list string :=
  flat_map (fun e => match e with Completion p _ => [p] | _ => [] end) evs.

(** The files written, with their contents, in order. *)
Definition writes (evs : list event) : list (string * string) :=
  flat_map (fun e => match e with WriteFile p c => [(p, c)] | _ => [] end) evs.

(** The rows printed one by one, in order. *)
Definition printed_rows (evs : list event) : list row :=
  flat_map (fun e => match e with Print (PRow r) => [r] | _ => [] end) evs.

(** [d] holds the first three fields of the row [r]. *)
Definition describes (r : row) (d : column_descriptor) : Prop :=
  exists rest, r = column_id d :: name d :: type d :: rest.

(** [s] ends with [tail]. *)
Definition ends_with (tail s : string) : Prop :=
  exists pre, s = pre ++ tail.

(** The assignment the loop of [router.py] builds for [record] when the
    router answers [answer] on its query. *)
Definition assignment (answer : value -> option string) (record : value)
  : outcome value :=
  match getitem record "query", getitem record "category" with
  | Ok q, Ok c =>
      Ok (VDict [ ("query", q); ("category", c);
                  ("route", route_value (answer q)) ])
  | Raise e, _ => Raise e
  | _, Raise e => Raise e
  end.

(** The router answers [answer] on the query of [record], whatever the
    state of the outside world. *)
Definition answers {X} (O : Outside X) (answer : value -> option string)
  (record : value) : Prop :=
  forall q x,
    getitem record "query" = Ok q ->
    exists x', router_call O q x = (Ok (answer q), x').

Fixpoint assignments (answer : value -> option string)
  (records : list value) : outcome (list value) :=
  match records with
  | [] => Ok []
  | record :: rest =>
      match assignment answer record with
      | Raise e => Raise e
      | Ok a => outcome_map (cons a) (assignments answer rest)
      end
  end.

(** The line of the prompt that shows the model the output format. *)
Definition output_format_line : string :=
  "{" ++ dq ++ "sql_query" ++ dq ++ ": <sql_query>}".

(** An input record of the batch: something with a [query] and a
    [category]. *)
Definition input_record (record : value) : Prop :=
  exists q c, getitem record "query" = Ok q /\ getitem record "category" = Ok c.

(** [a] is a route assignment for [record]: its query, its category, and
    some route or none. *)
Definition assignment_of (record a : value) : Prop :=
  exists q c route,
    getitem record "query" = Ok q
    /\ getitem record "category" = Ok c
    /\ a = VDict [ ("query", q); ("category", c); ("route", route_value route) ].

(** The library is the [Json] module wherever that answers. *)
Definition json_as_modelled {X} (O : Outside X) : Prop :=
  (forall v, Json.in_model v = true -> json_dumps O v = Json.dumps 4 v)
  /\ (forall text v,
        Json.loads text = Json.Decoded v -> json_loads O text = Some v)
  /\ (forall text,
        Json.loads text = Json.Invalid ->
        json_loads O text = None
        /\ json_loads_error O text = JSONDecodeError).

(** What the round trip of the [json] module needs of a value: every
    string in it is text of Unicode scalar values, it holds no float, no
    integer of it has more than 4300 digits, and in every dictionary inside
    it the keys are pairwise distinct, as they are in any Python
    [dict]. *)
Fixpoint distinct (keys : list string) : bool :=
  match keys with
  | [] => true
  | k :: rest => negb (existsb (String.eqb k) rest) && distinct rest
  end.

Fixpoint well_formed (v : value) : bool :=
  match v with
  | VNone => true
  | VBool _ => true
  | VInt z => Nat.leb (Json.int_digits z) Json.digit_limit
  | VFloat _ => false
  | VStr s => Utf8.scalar_text s
  | VList items => forallb well_formed items
  | VDict members =>
      distinct (map fst members)
      && forallb (fun kv => Utf8.scalar_text (fst kv) && well_formed (snd kv))
           members
  end.

(** A route assignment of the report whose strings satisfy [ok]: a query,
    a category and a route or none. *)
Definition route_assignment (ok : string -> bool) (a : value) : Prop :=
  exists q c route,
    a = VDict [ ("query", VStr q); ("category", VStr c);
                ("route", route_value route) ]
    /\ ok q = true /\ ok c = true
    /\ match route with Some name => ok name = true | None => True end.

(** An input record whose query and category are strings that satisfy
    [ok]. *)
Definition text_record (ok : string -> bool) (record : value) : Prop :=
  exists q c,
    getitem record "query" = Ok (VStr q)
    /\ getitem record "category" = Ok (VStr c)
    /\ ok q = true /\ ok c = true.

(** The fuel that decoding the encoding of a value takes. *)
Fixpoint size (v : value) : nat :=
  match v with
  | VList items => S (list_sum (map (fun x => S (size x)) items))
  | VDict members => S (list_sum (map (fun kv => S (size (snd kv))) members))
  | _ => 1
  end.

(** Text that cannot continue a number: it starts with no digit and with
    nothing that starts a fraction or an exponent. *)
Definition ends_number (s : Json.chars) : bool :=
  match s with
  | [] => true
  | c :: _ =>
      match Json.digit_of c with
      | Some _ => false
      | None => negb (Json.starts_float s)
      end
  end.

Definition no_digit (s : Json.chars) : Prop := ends_number s = true.

(** Decoding the encoding of [v], at any nesting level and before any text
    that does not continue a number, gives [v] back and stops there. *)
Definition decodes (indent : nat) (v : value) : Prop :=
  forall level fuel rest,
    size v <= fuel ->
    no_digit rest ->
    Json.parse_value fuel (Json.encode indent level v ++ rest)%list
    = Json.Decoded (v, rest).

(** * Properties *)

(** ** Running computations *)

Lemma run_bind {X A B} (c : M X A) (k : A -> M X B) (w : world X) :
  bind c k w =
  match result (c w) with
  | Ok a =>
      Ran (result (k a (after (c w)))) (after (k a (after (c w))))
          (emitted (c w) ++ emitted (k a (after (c w))))%list
  | Raise e => Ran (Raise e) (after (c w)) (emitted (c w))
  end.
Proof.
  unfold bind. destruct (c w) as [[a | e] w1 evs1]; cbn; [| reflexivity].
  destruct (k a w1); reflexivity.
Qed.

Lemma run_bind_ok {X A B} (c : M X A) (k : A -> M X B) (w w' : world X)
  (a : A) (evs : list event) :
  c w = Ran (Ok a) w' evs ->
  bind c k w =
  Ran (result (k a w')) (after (k a w')) (evs ++ emitted (k a w'))%list.
Proof. intros H. rewrite run_bind, H. reflexivity. Qed.

Lemma run_bind_raise {X A B} (c : M X A) (k : A -> M X B) (w w' : world X)
  (e : exn) (evs : list event) :
  c w = Ran (Raise e) w' evs ->
  bind c k w = Ran (Raise e) w' evs.
Proof. intros H. rewrite run_bind, H. reflexivity. Qed.

(** Unfolds the monad and nothing else. *)
Ltac step :=
  cbv beta iota zeta delta
    [bind ret raise lift try_except handler_for getitem
     result after emitted].

(** Splits a hypothesis [In e l] over a list [l] written out. *)
Ltac in_list H :=
  cbn in H;
  repeat match type of H with
         | _ \/ _ => destruct H as [H | H]
         end;
  try discriminate H; try contradiction H.

Lemma ran_eta {X A} (r : ran X A) :
  r = Ran (result r) (after r) (emitted r).
Proof. destruct r; reflexivity. Qed.

Lemma world_eta {X} (w : world X) :
  World (outside w) (open_connections w) (files w) = w.
Proof. destruct w; reflexivity. Qed.

(** ** The reply of the model *)

Section Reply.

Context {X : Type} (O : Outside X).

Lemma run_sql_query_falsy (v : value) (w : world X) :
  truthy v = false ->
  run_sql_query O v w = Ran (Ok tt) w [].
Proof.
  intros H. unfold run_sql_query. rewrite H. reflexivity.
Qed.

End Reply.

Section ReplyHandling.

Context {X : Type} (O : Outside X).

(** C1.  A reply that decodes but has no key [sql_query] is not turned
    into an absent [sql_query]: the lookup of line 68 raises [KeyError]
    (or [TypeError] when the reply is not an object), no [except] clause
    matches, and the exception leaves the script. *)
Theorem missing_key_reply_raises (reply : string) (v : value) (w : world X) :
  json_loads O reply = Some v ->
  has_key v "sql_query" = false ->
  exists e,
    handle_response O (Some reply) w =
    Ran (Raise e) w [Print (PResponse (Some reply))]
    /\ (e = KeyError "sql_query" \/ e = TypeError).
Proof.
  intros Hload Hkey.
  unfold handle_response, extract_sql_query, loads.
  rewrite Hload.
  destruct v as [| b | z | s | items | members | fl];
    try (exists TypeError; split; [reflexivity | now right]).
  exists (KeyError "sql_query"). split; [| now left].
  unfold has_key in Hkey.
  destruct (lookup "sql_query" members) eqn:Hlookup; [discriminate |].
  step. rewrite Hlookup. reflexivity.
Qed.

Lemma for_each_print_rows (rows : list row) (w : world X) :
  for_each rows (fun r => print (PRow r)) w =
  Ran (Ok tt) w (map (fun r => Print (PRow r)) rows).
Proof.
  induction rows as [| r rows IH]; [reflexivity |].
  cbn [for_each]. rewrite run_bind. cbn. rewrite IH. reflexivity.
Qed.

Lemma executions_app (l1 l2 : list event) :
  executions (l1 ++ l2) = (executions l1 ++ executions l2)%list.
Proof. apply List.flat_map_app. Qed.

Lemma connections_app (l1 l2 : list event) :
  connections (l1 ++ l2) = connections l1 + connections l2.
Proof. unfold connections. rewrite List.filter_app, List.length_app. reflexivity. Qed.

Lemma executions_rows (rows : list row) :
  executions (map (fun r => Print (PRow r)) rows) = [].
Proof. induction rows; [reflexivity | exact IHrows]. Qed.

Lemma connections_rows (rows : list row) :
  connections (map (fun r => Print (PRow r)) rows) = 0.
Proof. induction rows; [reflexivity | exact IHrows]. Qed.

Lemma in_rows (rows : list row) (e : event) :
  In e (map (fun r => Print (PRow r)) rows) -> exists p, e = Print p.
Proof.
  intros H. apply List.in_map_iff in H. destruct H as (r & <- & _). eauto.
Qed.

Lemma truthy_nonempty (s : string) : s <> EmptyString -> truthy (VStr s) = true.
Proof. destruct s; [congruence | reflexivity]. Qed.

(** The executor on a non-empty SQL text: one connection is asked for;
    without a connection or without a cursor nothing reaches [execute];
    with both, the text reaches [execute] exactly once, whether the
    statement then succeeds or fails, and nothing else does. *)
Lemma run_sql_query_text (s : string) (w : world X) :
  s <> EmptyString ->
  let q := run_sql_query O (VStr s) w in
  connections (emitted q) = 1
  /\ (forall e x1,
        sqlite_connect O db_path (outside w) = (Raise e, x1) ->
        executions (emitted q) = [])
  /\ (forall x1 e x2,
        sqlite_connect O db_path (outside w) = (Ok tt, x1) ->
        sqlite_cursor O x1 = (Raise e, x2) ->
        executions (emitted q) = [])
  /\ (forall x1 x2,
        sqlite_connect O db_path (outside w) = (Ok tt, x1) ->
        sqlite_cursor O x1 = (Ok tt, x2) ->
        executions (emitted q) = [s]).
Proof.
  intros Hs. cbv zeta. unfold run_sql_query.
  rewrite (truthy_nonempty Hs).
  unfold connect, cursor, execute_value, execute, fetchall, close.
  step.
  destruct (sqlite_connect O db_path (outside w)) as [[[] | e1] x1] eqn:Hc;
    cbn.
  2: { destruct (is_sqlite_error e1); cbn;
         (split; [reflexivity |]); repeat split; intros; congruence. }
  destruct (sqlite_cursor O x1) as [[[] | e2] x2] eqn:Hk; cbn.
  2: { destruct (is_sqlite_error e2); cbn;
         (split; [reflexivity |]); repeat split; intros;
         try discriminate; try reflexivity;
         match goal with
         | H : (Ok tt, _) = (Ok tt, _) |- _ => injection H as <-
         end; congruence. }
  assert (Hrun :
    forall r : ran X unit,
      connections (Connect db_path true :: Cursor true :: emitted r) = 1 ->
      executions (Connect db_path true :: Cursor true :: emitted r) = [s] ->
      connections (Connect db_path true :: Cursor true :: emitted r) = 1
      /\ (forall e x1',
            (Ok tt, x1) = (@Raise unit e, x1') ->
            executions (Connect db_path true :: Cursor true :: emitted r) = [])
      /\ (forall x1' e x2',
            (@Ok unit tt, x1) = (Ok tt, x1') ->
            sqlite_cursor O x1' = (Raise e, x2') ->
            executions (Connect db_path true :: Cursor true :: emitted r) = [])
      /\ (forall x1' x2',
            (@Ok unit tt, x1) = (Ok tt, x1') ->
            sqlite_cursor O x1' = (Ok tt, x2') ->
            executions (Connect db_path true :: Cursor true :: emitted r)
            = [s])).
  { intros r H1 H2. split; [exact H1 |]. split; [discriminate |].
    split; [| intros; exact H2].
    intros x1' e x2' H. injection H as <-. congruence. }
  destruct (sqlite_execute O s x2) as [[[] | e3] x3]; cbn.
  2: { destruct (is_sqlite_error e3); cbn;
         [apply (Hrun (Ran (Ok tt) w [Execute s false;
                                      Print (PSqliteError e3)]))
         | apply (Hrun (Ran (Raise e3) w [Execute s false]))];
         reflexivity. }
  destruct (sqlite_fetchall O x3) as [[rows | e4] x4]; cbn.
  2: { destruct (is_sqlite_error e4); cbn;
         [apply (Hrun (Ran (Ok tt) w [Execute s true; Fetchall false;
                                      Print (PSqliteError e4)]))
         | apply (Hrun (Ran (Raise e4) w [Execute s true; Fetchall false]))];
         reflexivity. }
  rewrite for_each_print_rows. cbn.
  pose proof (connections_rows rows) as Hcr.
  pose proof (executions_rows rows) as Her.
  apply (Hrun (Ran (Ok tt) w
                 (Execute s true :: Fetchall true :: Print PResultHeader
                    :: map (fun r => Print (PRow r)) rows ++ [Close])%list));
    cbn [emitted].
  - change (connections (?a :: ?b :: ?c :: ?d :: ?e :: ?l))
      with (S (connections l)) at 1.
    rewrite connections_app, Hcr. reflexivity.
  - change (executions (?a :: ?b :: ?c :: ?d :: ?e :: ?l))
      with (s :: executions l) at 1.
    rewrite executions_app, Her. reflexivity.
Qed.

(** Extracting [sql_query] touches neither the database nor the world. *)
Lemma extract_sql_query_quiet (response : option string) (w : world X) :
  after (extract_sql_query O response w) = w
  /\ connections (emitted (extract_sql_query O response w)) = 0
  /\ executions (emitted (extract_sql_query O response w)) = [].
Proof.
  unfold extract_sql_query, loads.
  destruct response as [text |]; [| now cbn].
  destruct (json_loads O text) as [v |];
    [| step; destruct (is_json_decode_error (json_loads_error O text));
       now cbn].
  step. destruct v as [| b | z | s | items | members | fl]; try now cbn.
  destruct (lookup "sql_query" members); now cbn.
Qed.

Lemma handle_response_run (response : option string) (w : world X) (v : value) :
  result (extract_sql_query O response w) = Ok v ->
  handle_response O response w =
  Ran (match result (run_sql_query O v w) with
       | Ok _ => Ok v
       | Raise e => Raise e
       end)
      (after (run_sql_query O v w))
      (Print (PResponse response)
         :: emitted (extract_sql_query O response w)
         ++ emitted (run_sql_query O v w))%list.
Proof.
  intros Hv. unfold handle_response.
  destruct (extract_sql_query_quiet response w) as (Hw & _ & _).
  rewrite run_bind. cbn [print emit result after emitted].
  rewrite run_bind, Hv, Hw, run_bind.
  destruct (result (run_sql_query O v w)); cbn; rewrite ?List.app_nil_r; reflexivity.
Qed.

(** The executor on a float: it asks for one connection, and it does not
    end well unless that is refused. *)
Lemma run_sql_query_float (x : spec_float) (w : world X) :
  truthy (VFloat x) = true ->
  connections (emitted (run_sql_query O (VFloat x) w)) = 1.
Proof.
  intros Hx. unfold run_sql_query. rewrite Hx.
  unfold connect, cursor, execute_value. step.
  destruct (sqlite_connect O db_path (outside w)) as [[[] | e1] x1]; cbn.
  2: { destruct (is_sqlite_error e1); reflexivity. }
  destruct (sqlite_cursor O x1) as [[[] | e2] x2]; cbn; [reflexivity |].
  destruct (is_sqlite_error e2); reflexivity.
Qed.

(** C4.  A reply that is not JSON does not always leave [sql_query] at
    [None] with the executor idle, because [json.loads] accepts more than
    JSON and fails in more than one way.  When it decodes the reply to a
    float, as it does the reply [NaN], the lookup of line 68 raises
    [TypeError], which no clause catches.  When it decodes the reply to an
    object whose [sql_query] is a float other than zero, as it does
    [{"sql_query": NaN}], the executor is run and [sql_query] is not
    [None].  When it fails with something other than [JSONDecodeError], as
    it does on a reply nested too deep, that exception leaves the script.
    Only when it raises [JSONDecodeError] is the reply handled as claimed:
    the reply and the decoding error are printed, [sql_query] is [None] and
    nothing else happens. *)
Theorem lenient_reply_escapes (reply : string) (x : spec_float) (w : world X) :
  (json_loads O reply = Some (VFloat x) ->
   handle_response O (Some reply) w =
   Ran (Raise TypeError) w [Print (PResponse (Some reply))])
  /\ (json_loads O reply = Some (VDict [("sql_query", VFloat x)]) ->
      truthy (VFloat x) = true ->
      connections (emitted (handle_response O (Some reply) w)) = 1
      /\ result (handle_response O (Some reply) w) <> Ok VNone)
  /\ (json_loads O reply = None ->
      is_json_decode_error (json_loads_error O reply) = false ->
      handle_response O (Some reply) w =
      Ran (Raise (json_loads_error O reply)) w
          [Print (PResponse (Some reply))])
  /\ (json_loads O reply = None ->
      json_loads_error O reply = JSONDecodeError ->
      handle_response O (Some reply) w =
      Ran (Ok VNone) w [Print (PResponse (Some reply)); Print PDecodeError]).
Proof.
  split; [| split; [| split]].
  - intros H. unfold handle_response, extract_sql_query, loads.
    rewrite H. reflexivity.
  - intros H Hx.
    assert (Hv : result (extract_sql_query O (Some reply) w) = Ok (VFloat x))
      by (unfold extract_sql_query, loads; rewrite H; reflexivity).
    rewrite (handle_response_run _ _ Hv). cbn [emitted result]. split.
    + change (Print (PResponse (Some reply)) :: ?l)
        with ([Print (PResponse (Some reply))] ++ l)%list.
      destruct (extract_sql_query_quiet (Some reply) w) as (_ & Hc & _).
      rewrite !connections_app, Hc, (@run_sql_query_float x w Hx).
      reflexivity.
    + destruct (result (run_sql_query O (VFloat x) w)); discriminate.
  - intros H He. unfold handle_response, extract_sql_query, loads.
    rewrite H. step. rewrite He. reflexivity.
  - intros H He. unfold handle_response, extract_sql_query, loads.
    rewrite H. step. rewrite He. reflexivity.
Qed.

(** C3, amended.  Whatever [sql_query] was extracted from the reply is
    what the script still holds at its end.  A falsy [sql_query] ([None]
    but also the empty string) does not reach the executor: no connection,
    no statement.  A non-empty SQL text makes the executor ask for exactly
    one connection; if the connection or the cursor is refused, nothing is
    passed to [execute]; if both are obtained, that text and nothing else
    is passed to [execute], exactly once, whether the statement succeeds
    or fails. *)
Theorem nonempty_query_attempted_once (response : option string)
  (w : world X) (v : value) :
  result (extract_sql_query O response w) = Ok v ->
  let r := handle_response O response w in
  (forall v', result r = Ok v' -> v' = v)
  /\ (truthy v = false ->
      connections (emitted r) = 0 /\ executions (emitted r) = [])
  /\ (forall s,
        v = VStr s -> s <> EmptyString ->
        connections (emitted r) = 1
        /\ (forall e x1,
              sqlite_connect O db_path (outside w) = (Raise e, x1) ->
              executions (emitted r) = [])
        /\ (forall x1 e x2,
              sqlite_connect O db_path (outside w) = (Ok tt, x1) ->
              sqlite_cursor O x1 = (Raise e, x2) ->
              executions (emitted r) = [])
        /\ (forall x1 x2,
              sqlite_connect O db_path (outside w) = (Ok tt, x1) ->
              sqlite_cursor O x1 = (Ok tt, x2) ->
              executions (emitted r) = [s])).
Proof.
  intros Hv. cbv zeta. rewrite (handle_response_run _ _ Hv).
  destruct (extract_sql_query_quiet response w) as (_ & Hc & He).
  cbn [result emitted].
  change (Print (PResponse response) :: ?l)
    with ([Print (PResponse response)] ++ l)%list.
  rewrite !connections_app, !executions_app, Hc, He.
  cbn [List.app connections executions flat_map filter List.length Nat.add].
  split; [| split].
  - intros v'. destruct (result (run_sql_query O v w)); congruence.
  - intros Hf. rewrite (run_sql_query_falsy O _ w Hf). split; reflexivity.
  - intros s -> Hs. exact (run_sql_query_text w Hs).
Qed.

End ReplyHandling.

(** ** The prompt *)

Lemma occurs_here (n post : string) : occurs_in n (n ++ post).
Proof. exists EmptyString, post. reflexivity. Qed.

Lemma occurs_cons (n s : string) (c : ascii) :
  occurs_in n s -> occurs_in n (String c s).
Proof.
  intros (pre & post & ->). exists (String c pre), post. reflexivity.
Qed.

Lemma string_app_assoc (a b c : string) : (a ++ b) ++ c = a ++ (b ++ c).
Proof. induction a as [| x a IH]; cbn; [reflexivity | now rewrite IH]. Qed.

Lemma occurs_app (n a s : string) : occurs_in n s -> occurs_in n (a ++ s).
Proof.
  intros (pre & post & ->). exists (a ++ pre), post.
  now rewrite string_app_assoc.
Qed.

Ltac find_occurrence :=
  repeat first [apply occurs_here | apply occurs_cons | apply occurs_app].

Section Prompt.

Context {X : Type} (O : Outside X).

(** C5.  The prompt builder always yields a prompt, the prompt holds the
    question and the table name as they are, and building it is a
    computation of the four inputs only: run in any world it gives that
    same prompt, leaves the world as it was and does nothing to the
    outside. *)
Theorem build_prompt_pure_and_literal (tn : string)
  (ci : option (list column_descriptor)) (ts : list row) (q : string) :
  exists out,
    build_prompt O tn ci ts q = Ok out
    /\ occurs_in q out
    /\ occurs_in tn out
    /\ (forall w : world X,
          lift (build_prompt O tn ci ts q) w = Ran (Ok out) w []).
Proof.
  eexists. split; [unfold build_prompt; vm_compute; reflexivity |].
  split; [find_occurrence |].
  split; [find_occurrence |].
  intros w. unfold build_prompt. vm_compute. reflexivity.
Qed.

End Prompt.

(** ** Connections *)

Section Connections.

Context {X : Type} (O : Outside X).

Ltac driver_call :=
  match goal with
  | |- context [sqlite_connect O ?p ?x] =>
      destruct (sqlite_connect O p x) as [[[] | ?e] ?x1] eqn:?
  | |- context [sqlite_cursor O ?x] =>
      destruct (sqlite_cursor O x) as [[[] | ?e] ?x1] eqn:?
  | |- context [sqlite_execute O ?s ?x] =>
      destruct (sqlite_execute O s x) as [[[] | ?e] ?x1] eqn:?
  | |- context [sqlite_fetchall O ?x] =>
      destruct (sqlite_fetchall O x) as [[?rows | ?e] ?x1] eqn:?
  end; cbn.

Ltac caught :=
  match goal with
  | |- context [is_sqlite_error ?e] =>
      destruct (is_sqlite_error e); cbn;
      try (destruct (is_Exception e); cbn)
  end.

Ltac no_failed_statement :=
  cbn; intros;
  repeat match goal with
         | H : _ \/ _ |- _ => destruct H
         | H : False |- _ => destruct H
         | H : _ = Execute _ false |- _ => discriminate H
         | H : In _ (map _ _) |- _ =>
             apply in_rows in H; destruct H; discriminate
         | H : In _ (_ ++ _) |- _ => apply List.in_app_or in H
         | H : In _ (_ :: _) |- _ => destruct H
         | H : In _ [] |- _ => destruct H
         end.

Lemma get_table_sample_leak (db_file table : string) (w : world X) (sql : string) :
  In (Execute sql false) (emitted (get_table_sample O db_file table w)) ->
  open_connections (after (get_table_sample O db_file table w))
  = S (open_connections w).
Proof.
  unfold get_table_sample, connect, cursor, execute, fetchall, close. step.
  driver_call; [| caught; no_failed_statement].
  driver_call; [| caught; no_failed_statement].
  driver_call; [| caught; reflexivity].
  driver_call; [| caught; no_failed_statement].
  no_failed_statement.
Qed.

Lemma get_column_info_leak (db_file table : string) (w : world X) (sql : string) :
  In (Execute sql false) (emitted (get_column_info O db_file table w)) ->
  open_connections (after (get_column_info O db_file table w))
  = S (open_connections w).
Proof.
  unfold get_column_info, connect, cursor, execute, fetchall, close. step.
  driver_call; [| caught; no_failed_statement].
  driver_call; [| caught; no_failed_statement].
  driver_call; [| caught; reflexivity].
  driver_call; [| caught; no_failed_statement].
  destruct (describe_all rows) as [ds | e]; cbn; [| caught];
    no_failed_statement.
Qed.

Lemma run_sql_query_leak (v : value) (w : world X) (sql : string) :
  In (Execute sql false) (emitted (run_sql_query O v w)) ->
  open_connections (after (run_sql_query O v w)) = S (open_connections w).
Proof.
  unfold run_sql_query.
  destruct (truthy v); [| no_failed_statement].
  unfold connect, cursor, execute_value, execute, fetchall, close. step.
  driver_call; [| caught; no_failed_statement].
  driver_call; [| caught; no_failed_statement].
  destruct v as [| b | z | s | items | members | fl]; cbn;
    try solve [no_failed_statement].
  driver_call; [| caught; reflexivity].
  driver_call; [| caught; no_failed_statement].
  rewrite for_each_print_rows. no_failed_statement.
Qed.

(** C2.  What the code does where the claim fails: in each of the three
    database operations, a statement that [execute] rejects leaves the
    connection that was opened for it open; [conn.close()] sits on the
    success path only. *)
Theorem failed_statement_leaves_connection_open (w : world X) :
  (forall db_file table sql,
      In (Execute sql false) (emitted (get_column_info O db_file table w)) ->
      open_connections (after (get_column_info O db_file table w))
      = S (open_connections w))
  /\ (forall db_file table sql,
        In (Execute sql false) (emitted (get_table_sample O db_file table w)) ->
        open_connections (after (get_table_sample O db_file table w))
        = S (open_connections w))
  /\ (forall sql_query sql,
        In (Execute sql false) (emitted (run_sql_query O sql_query w)) ->
        open_connections (after (run_sql_query O sql_query w))
        = S (open_connections w)).
Proof.
  split; [| split]; intros.
  - eapply get_column_info_leak; eassumption.
  - eapply get_table_sample_leak; eassumption.
  - eapply run_sql_query_leak; eassumption.
Qed.

End Connections.

(** ** The schema introspector *)

Section Introspection.

Context {X : Type} (O : Outside X).

(** C6.  A table name that SQLite accepts is not always described.  The
    name is pasted between two quotes into the [PRAGMA table_info]
    statement, so a name that holds a quote, such as [it's], gives a
    statement that SQLite rejects with an [sqlite3.Error]; the handler
    prints it and [get_column_info] returns [None]: no descriptor at all,
    however many columns the table has, and the connection stays open. *)
Theorem get_column_info_rejected_statement (db_file table msg : string)
  (w : world X) (x1 x2 x3 : X) :
  sqlite_connect O db_file (outside w) = (Ok tt, x1) ->
  sqlite_cursor O x1 = (Ok tt, x2) ->
  sqlite_execute O ("PRAGMA table_info('" ++ table ++ "')") x2
  = (Raise (SqliteError msg), x3) ->
  get_column_info O db_file table w
  = Ran (Ok None)
      (World x3 (S (open_connections w)) (files w))
      [ Connect db_file true; Cursor true;
        Execute ("PRAGMA table_info('" ++ table ++ "')") false;
        Print (PSqliteError (SqliteError msg)) ].
Proof.
  intros Hconnect Hcursor Hexecute.
  unfold get_column_info, connect, cursor, execute, fetchall, close. step.
  rewrite Hconnect. cbn -[append]. rewrite Hcursor. cbn -[append].
  rewrite Hexecute. reflexivity.
Qed.

End Introspection.

(** ** The batch classifier *)

Section Batch.

Context {X : Type} (O : Outside X).

Lemma classify_record_run (record q c : value) (w : world X) :
  getitem record "query" = Ok q ->
  getitem record "category" = Ok c ->
  classify_record O record w =
  Ran (match fst (router_call O q (outside w)) with
       | Ok route =>
           Ok (VDict [ ("query", q); ("category", c);
                       ("route", route_value route) ])
       | Raise e => Raise e
       end)
      (World (snd (router_call O q (outside w))) (open_connections w) (files w))
      [Classify q (is_ok (fst (router_call O q (outside w))))].
Proof.
  intros Hq Hc. unfold classify_record, call_router.
  cbv beta iota zeta delta [bind ret raise lift result after emitted].
  rewrite Hq, Hc.
  destruct (router_call O q (outside w)) as [[route | e] x]; reflexivity.
Qed.

(** One turn of the loop, whatever the record: the files are not touched,
    at most one router call is made, and a failed call ends the turn with
    its exception. *)
Lemma classify_record_cases (record : value) (w : world X) :
  files (after (classify_record O record w)) = files w
  /\ (emitted (classify_record O record w) = []
      \/ exists q b,
           emitted (classify_record O record w) = [Classify q b]
           /\ (b = false ->
               exists e, result (classify_record O record w) = Raise e)).
Proof.
  unfold classify_record, call_router.
  cbv beta iota zeta delta [bind ret raise lift result after emitted].
  destruct (getitem record "query") as [q | e]; [| cbn; auto].
  destruct (router_call O q (outside w)) as [[route | e] x]; cbn.
  - destruct (getitem record "category") as [c | e]; cbn;
      (split; [reflexivity | right; exists q, true; split; [reflexivity | discriminate]]).
  - split; [reflexivity | right]. exists q, false. eauto.
Qed.

Lemma build_report_run (records report : list value) (w : world X) :
  files (after (build_report O records report w)) = files w
  /\ (forall p c, ~ In (WriteFile p c) (emitted (build_report O records report w)))
  /\ (forall t,
        In (Classify t false) (emitted (build_report O records report w)) ->
        exists e, result (build_report O records report w) = Raise e).
Proof.
  revert report w. induction records as [| record rest IH]; intros report w.
  - cbn. repeat split; intros; tauto.
  - cbn [build_report]. rewrite run_bind.
    destruct (classify_record_cases record w) as (Hfiles & Hevs).
    destruct (result (classify_record O record w)) as [a | e] eqn:Hres.
    + destruct (IH (report ++ [a])%list (after (classify_record O record w)))
        as (IHf & IHw & IHc).
      cbn [result after emitted]. repeat split.
      * now rewrite IHf.
      * intros p c Hin. apply List.in_app_or in Hin. destruct Hin as [Hin | Hin].
        -- destruct Hevs as [Hevs | (q & b & Hevs & _)]; rewrite Hevs in Hin;
             in_list Hin.
        -- apply (IHw p c Hin).
      * intros t Hin. apply List.in_app_or in Hin. destruct Hin as [Hin | Hin].
        -- destruct Hevs as [Hevs | (q & b & Hevs & Hb)]; rewrite Hevs in Hin;
             in_list Hin.
           injection Hin as _ ->. destruct (Hb eq_refl) as (e & He). discriminate.
        -- apply (IHc t Hin).
    + cbn [result after emitted]. repeat split; [assumption | | eauto].
      intros p c Hin.
      destruct Hevs as [Hevs | (q & b & Hevs & _)]; rewrite Hevs in Hin;
        in_list Hin.
Qed.

Lemma build_report_answers (records report : list value) (w : world X) :
  Forall input_record records ->
  (forall t, ~ In (Classify t false) (emitted (build_report O records report w))) ->
  exists assignments,
    result (build_report O records report w) = Ok (report ++ assignments)%list
    /\ Forall2 assignment_of records assignments.
Proof.
  intros Hrecords. revert report w.
  induction Hrecords as [| record rest (q & c & Hq & Hc) _ IH];
    intros report w Hcalls.
  - exists []. cbn. rewrite List.app_nil_r. split; [reflexivity | constructor].
  - cbn [build_report] in *. rewrite run_bind in *.
    rewrite (@classify_record_run record q c w Hq Hc) in *.
    cbn [result after emitted] in *.
    destruct (router_call O q (outside w)) as [[route | e] x]; cbn in *.
    + match goal with
      | |- context [build_report O rest ?r ?w'] =>
          destruct (IH r w') as (assignments & Hres & Hall)
      end.
      { intros t Hin. apply (Hcalls t). now right. }
      exists (VDict [ ("query", q); ("category", c);
                      ("route", route_value route) ] :: assignments).
      rewrite Hres, <- List.app_assoc. split; [reflexivity |].
      constructor; [| assumption]. exists q, c, route. auto.
    + exfalso. apply (Hcalls q). now left.
Qed.

Lemma assignments_in_order (records report : list value) :
  Forall2 assignment_of records report ->
  length report = length records
  /\ map (fun a => getitem a "query") report
     = map (fun r => getitem r "query") records.
Proof.
  induction 1 as [| record a records report (q & c & route & Hq & Hc & ->) _ IH].
  - split; reflexivity.
  - destruct IH as (Hlen & Hmap). cbn [List.length map]. rewrite Hlen, Hmap, Hq.
    split; reflexivity.
Qed.

(** The script once the router is set up and the input file is read. *)
Lemma router_py_run (w : world X) (x : X) (text : string)
  (queries : value) (records : list value) :
  router_setup O (outside w) = (Ok tt, x) ->
  files w "queries.json" = Some text ->
  json_loads O text = Some queries ->
  iterate queries = Ok records ->
  router_py O w =
  let b := build_report O records [] (World x (open_connections w) (files w)) in
  match result b with
  | Ok report =>
      Ran (Ok tt)
          (World (outside (after b)) (open_connections (after b))
             (fun p =>
                if String.eqb p "report.json"
                then Some (json_dumps O (VList report))
                else files (after b) p))
          (RouterSetup true :: ReadFile "queries.json" true
             :: emitted b
             ++ [WriteFile "report.json" (json_dumps O (VList report))])%list
  | Raise e =>
      Ran (Raise e) (after b)
          (RouterSetup true :: ReadFile "queries.json" true :: emitted b)
  end.
Proof.
  intros Hsetup Hfile Hloads Hiter.
  unfold router_py, setup_router, read_file, write_file, loads. step.
  rewrite Hsetup. cbn. rewrite Hfile, Hloads, Hiter.
  destruct (build_report O records [] _) as [[report | e] w2 evs]; reflexivity.
Qed.

(** C7.  When the input file decodes to a sequence of records that each
    have a query and a category, and neither the set-up of the router nor
    any of its calls fails, the script ends normally and the report it
    writes holds one assignment per record, in the order of the input:
    the i-th assignment carries the query and the category of the i-th
    record. *)
Theorem batch_report_one_per_record_in_order (w : world X) (text : string)
  (queries : value) (records : list value) :
  files w "queries.json" = Some text ->
  json_loads O text = Some queries ->
  iterate queries = Ok records ->
  Forall input_record records ->
  ~ In (RouterSetup false) (emitted (router_py O w)) ->
  (forall t, ~ In (Classify t false) (emitted (router_py O w))) ->
  exists report,
    result (router_py O w) = Ok tt
    /\ files (after (router_py O w)) "report.json"
       = Some (json_dumps O (VList report))
    /\ Forall2 assignment_of records report
    /\ length report = length records
    /\ map (fun a => getitem a "query") report
       = map (fun r => getitem r "query") records.
Proof.
  intros Hfile Hloads Hiter Hrecords Hsetup Hcalls.
  destruct (router_setup O (outside w)) as [[[] | e] x] eqn:Hs.
  2: { exfalso. apply Hsetup. unfold router_py, setup_router. step.
       rewrite Hs. now left. }
  rewrite (router_py_run w Hs Hfile Hloads Hiter) in *. cbv zeta in *.
  set (w1 := World x (open_connections w) (files w)) in *.
  destruct (build_report_answers [] w1 Hrecords) as (report & Hres & Hall).
  { intros t Hin. apply (Hcalls t).
    destruct (result (build_report O records [] w1)); cbn [emitted];
      right; right; [apply List.in_or_app; now left | assumption]. }
  cbn [List.app] in Hres. rewrite Hres. cbn [result after emitted files].
  exists report. split; [reflexivity |]. split; [reflexivity |].
  split; [assumption |]. now apply assignments_in_order.
Qed.

(** C10.  If a call of the router fails at any record, the script ends with
    an exception, the files are as they were before it started, and no
    write was attempted: the report is written only once every record has
    been classified. *)
Theorem failed_call_writes_no_report (w : world X) :
  (exists t, In (Classify t false) (emitted (router_py O w))) ->
  (exists e, result (router_py O w) = Raise e)
  /\ files (after (router_py O w)) = files w
  /\ (forall p c, ~ In (WriteFile p c) (emitted (router_py O w))).
Proof.
  intros (t & Hfail).
  destruct (router_setup O (outside w)) as [[[] | e] x] eqn:Hs.
  2: { exfalso. revert Hfail. unfold router_py, setup_router. step.
       rewrite Hs. intros H; in_list H. }
  destruct (files w "queries.json") as [text |] eqn:Hfile.
  2: { exfalso. revert Hfail. unfold router_py, setup_router, read_file. step.
       rewrite Hs. cbn. rewrite Hfile. intros H; in_list H. }
  destruct (json_loads O text) as [queries |] eqn:Hloads.
  2: { exfalso. revert Hfail.
       unfold router_py, setup_router, read_file, loads. step.
       rewrite Hs. cbn. rewrite Hfile, Hloads. intros H; in_list H. }
  destruct (iterate queries) as [records | e] eqn:Hiter.
  2: { exfalso. revert Hfail.
       unfold router_py, setup_router, read_file, loads. step.
       rewrite Hs. cbn. rewrite Hfile, Hloads, Hiter. intros H; in_list H. }
  rewrite (router_py_run w Hs Hfile Hloads Hiter) in *. cbv zeta in *.
  set (w1 := World x (open_connections w) (files w)) in *.
  destruct (build_report_run records [] w1) as (Hfiles & Hwrites & Hcalls).
  destruct (result (build_report O records [] w1)) as [report | e] eqn:Hres;
    cbn [result after emitted] in *.
  - exfalso. destruct Hfail as [H | [H | H]]; try discriminate.
    apply List.in_app_or in H. destruct H as [H | H]; [| in_list H].
    destruct (Hcalls t H) as (e & He). discriminate.
  - split; [eauto |]. split; [exact Hfiles |].
    intros p c [H | [H | H]]; try discriminate. apply (Hwrites p c H).
Qed.

End Batch.

(** ** Strings as bytes *)

Module Utf8Facts.

Import Utf8.
Local Open Scope N_scope.

Ltac arith := zify; Z.to_euclidean_division_equations; lia.

Ltac tests :=
  repeat match goal with
         | H : (_ && _)%bool = true |- _ =>
             apply andb_true_iff in H; destruct H
         | H : (_ <? _) = true |- _ => apply N.ltb_lt in H
         | H : (_ <? _) = false |- _ => apply N.ltb_ge in H
         | H : (_ <=? _) = true |- _ => apply N.leb_le in H
         | H : (_ <=? _) = false |- _ => apply N.leb_gt in H
         | H : (_ =? _) = true |- _ => apply N.eqb_eq in H
         | H : (_ =? _) = false |- _ => apply N.eqb_neq in H
         end.

Lemma byte_of (c : ascii) : byte (N_of_ascii c) = c.
Proof. apply ascii_N_embedding. Qed.

Lemma byte_is (c : ascii) (n : N) : N_of_ascii c = n -> byte n = c.
Proof. intros <-. apply byte_of. Qed.

Lemma continuation_spec (c : ascii) (n : N) :
  continuation c = Some n -> N_of_ascii c = 128 + n /\ n < 64.
Proof.
  unfold continuation.
  destruct ((128 <=? N_of_ascii c) && (N_of_ascii c <? 192))%bool eqn:H;
    [| discriminate].
  intros E. injection E as <-. tests. split; lia.
Qed.

Lemma encode_1 (cp : N) : cp < 128 -> encode cp = [byte cp].
Proof.
  intros H. unfold encode.
  destruct (cp <? 128) eqn:H1; tests; [reflexivity | lia].
Qed.

Lemma encode_2 (cp : N) :
  128 <= cp -> cp < 2048 ->
  encode cp = [byte (192 + cp / 64); byte (128 + cp mod 64)].
Proof.
  intros Hl Hu. unfold encode.
  destruct (cp <? 128) eqn:H1, (cp <? 2048) eqn:H2; tests;
    try lia; reflexivity.
Qed.

Lemma encode_3 (cp : N) :
  2048 <= cp -> cp < 65536 ->
  encode cp
  = [byte (224 + cp / 4096); byte (128 + (cp / 64) mod 64);
     byte (128 + cp mod 64)].
Proof.
  intros Hl Hu. unfold encode.
  destruct (cp <? 128) eqn:H1, (cp <? 2048) eqn:H2, (cp <? 65536) eqn:H3;
    tests; try lia; reflexivity.
Qed.

Lemma encode_4 (cp : N) :
  65536 <= cp ->
  encode cp
  = [byte (240 + cp / 262144); byte (128 + (cp / 4096) mod 64);
     byte (128 + (cp / 64) mod 64); byte (128 + cp mod 64)].
Proof.
  intros Hl. unfold encode.
  destruct (cp <? 128) eqn:H1, (cp <? 2048) eqn:H2, (cp <? 65536) eqn:H3;
    tests; try lia; reflexivity.
Qed.

(** What [decode] read first, and what it went on with. *)
Lemma decode_step (s : list ascii) (cps : list N) :
  decode s = Some cps ->
  match cps with
  | [] => s = []
  | cp :: cps' =>
      exists s',
        s = (encode cp ++ s')%list
        /\ decode s' = Some cps'
        /\ cp < 1114112
        /\ (List.length s' < List.length s)%nat
  end.
Proof.
  destruct s as [| b0 r0]; cbn [decode].
  - intros E. injection E as <-. reflexivity.
  - pose proof (N_ascii_bounded b0) as Hb0.
    destruct (N_of_ascii b0 <? 128) eqn:T1.
    { destruct (decode r0) as [l |] eqn:Hd; cbn [option_map]; [| discriminate].
      intros E. injection E as <-. tests. exists r0.
      rewrite encode_1, byte_of by assumption.
      repeat split; cbn [List.length]; first [exact Hd | lia]. }
    destruct (N_of_ascii b0 <? 192) eqn:T2; [discriminate |].
    destruct (N_of_ascii b0 <? 224) eqn:T3.
    { destruct r0 as [| b1 r1]; [discriminate |].
      destruct (continuation b1) as [c1 |] eqn:C1; [| discriminate].
      apply continuation_spec in C1. destruct C1 as (E1 & B1).
      destruct (128 <=? (N_of_ascii b0 - 192) * 64 + c1) eqn:T4;
        [| discriminate].
      destruct (decode r1) as [l |] eqn:Hd; cbn [option_map]; [| discriminate].
      intros E. injection E as <-. tests. exists r1.
      rewrite encode_2 by arith.
      rewrite (@byte_is b0), (@byte_is b1) by arith.
      repeat split; cbn [List.length]; first [exact Hd | lia | arith]. }
    destruct (N_of_ascii b0 <? 240) eqn:T5.
    { destruct r0 as [| b1 [| b2 r2]]; try discriminate.
      destruct (continuation b1) as [c1 |] eqn:C1; [| discriminate].
      destruct (continuation b2) as [c2 |] eqn:C2; [| discriminate].
      apply continuation_spec in C1. destruct C1 as (E1 & B1).
      apply continuation_spec in C2. destruct C2 as (E2 & B2).
      destruct (2048 <=? (N_of_ascii b0 - 224) * 4096 + c1 * 64 + c2) eqn:T4;
        [| discriminate].
      destruct (decode r2) as [l |] eqn:Hd; cbn [option_map]; [| discriminate].
      intros E. injection E as <-. tests. exists r2.
      rewrite encode_3 by arith.
      rewrite (@byte_is b0), (@byte_is b1), (@byte_is b2) by arith.
      repeat split; cbn [List.length]; first [exact Hd | lia | arith]. }
    destruct (N_of_ascii b0 <? 248) eqn:T6; [| discriminate].
    destruct r0 as [| b1 [| b2 [| b3 r3]]]; try discriminate.
    destruct (continuation b1) as [c1 |] eqn:C1; [| discriminate].
    destruct (continuation b2) as [c2 |] eqn:C2; [| discriminate].
    destruct (continuation b3) as [c3 |] eqn:C3; [| discriminate].
    apply continuation_spec in C1. destruct C1 as (E1 & B1).
    apply continuation_spec in C2. destruct C2 as (E2 & B2).
    apply continuation_spec in C3. destruct C3 as (E3 & B3).
    match goal with
    | |- context [if ?t then _ else _] => destruct t eqn:T4; [| discriminate]
    end.
    destruct (decode r3) as [l |] eqn:Hd; cbn [option_map]; [| discriminate].
    intros E. injection E as <-. tests. exists r3.
    rewrite encode_4 by arith.
    rewrite (@byte_is b0), (@byte_is b1), (@byte_is b2), (@byte_is b3)
      by arith.
    repeat split; cbn [List.length]; first [exact Hd | lia | arith].
Qed.

(** The code points [decode] gives are those of the bytes, and each is a
    code point. *)
Lemma decode_encode (s : list ascii) (cps : list N) :
  decode s = Some cps ->
  flat_map encode cps = s /\ Forall (fun cp => cp < 1114112) cps.
Proof.
  remember (List.length s) as n eqn:Hn.
  assert (Hle : (List.length s <= n)%nat) by lia. clear Hn.
  revert s cps Hle.
  induction n as [| n IH]; intros s cps Hle H; apply decode_step in H;
    (destruct cps as [| cp cps];
     [subst s; split; [reflexivity | constructor] |]);
    destruct H as (s' & -> & Hd & Hcp & Hlt).
  - lia.
  - destruct (IH s' cps) as (Hs & Hall); [lia | exact Hd |].
    cbn [flat_map]. rewrite Hs. split; [reflexivity | now constructor].
Qed.

End Utf8Facts.

(** ** The [json] module: decoding what was encoded *)

Module JsonFacts.

Import Json.
Local Open Scope list_scope.

Lemma skip_ws_here (c : ascii) (r : chars) :
  is_ws c = false -> skip_ws (c :: r) = c :: r.
Proof. intros H. cbn. now rewrite H. Qed.

Lemma skip_ws_spaces (n : nat) (s : chars) :
  skip_ws (repeat " "%char n ++ s) = skip_ws s.
Proof. induction n as [| n IH]; [reflexivity | exact IH]. Qed.

Lemma skip_ws_newline_indent (indent level : nat) (s : chars) :
  skip_ws (newline_indent indent level ++ s) = skip_ws s.
Proof. unfold newline_indent. cbn. apply skip_ws_spaces. Qed.

(** *** Strings *)

Lemma hex_round (d : N) : (d < 16)%N -> hex_value (hex_digit d) = Some d.
Proof.
  intros H. rewrite <- (N2Nat.id d) in *.
  assert (Hn : N.to_nat d < 16) by lia. clear H.
  revert Hn. generalize (N.to_nat d). intros n Hn.
  do 16 (destruct n as [| n]; [reflexivity |]). lia.
Qed.

Lemma hex4_round (n : N) :
  (n < 65536)%N ->
  hex4 (hex_digit (n / 4096)) (hex_digit ((n / 256) mod 16))
    (hex_digit ((n / 16) mod 16)) (hex_digit (n mod 16))
  = Some n.
Proof.
  intros H. unfold hex4.
  rewrite !hex_round by Utf8Facts.arith.
  f_equal. Utf8Facts.arith.
Qed.

Lemma scan_string_u (h1 h2 h3 h4 : ascii) (r2 : chars) :
  scan_string (backslash :: "u"%char :: h1 :: h2 :: h3 :: h4 :: r2) =
  match hex4 h1 h2 h3 h4 with
  | Some n =>
      if Utf8.high n then
        match r2 with
        | b :: u :: k1 :: k2 :: k3 :: k4 :: r3 =>
            if Ascii.eqb b backslash && Ascii.eqb u "u"%char
            then
              match hex4 k1 k2 k3 k4 with
              | Some m =>
                  if Utf8.low m
                  then push_all
                         (Utf8.encode
                            (65536 + (n - 55296) * 1024 + (m - 56320))%N)
                         (scan_string r3)
                  else push_all (Utf8.encode n) (scan_string r2)
              | None => None
              end
            else push_all (Utf8.encode n) (scan_string r2)
        | _ => push_all (Utf8.encode n) (scan_string r2)
        end
      else push_all (Utf8.encode n) (scan_string r2)
  | None => None
  end.
Proof. reflexivity. Qed.

(** One character below 128, whichever way it is written. *)
Lemma scan_escape_ascii (c : ascii) (rest : chars) :
  (N_of_ascii c < 128)%N ->
  scan_string (escape (N_of_ascii c) ++ rest)
  = push_all (Utf8.encode (N_of_ascii c)) (scan_string rest).
Proof.
  destruct c as [[] [] [] [] [] [] [] []]; intros H;
    first [reflexivity | exfalso; vm_compute in H; discriminate H].
Qed.

Lemma escape_u (cp : N) :
  (128 <= cp)%N -> (cp < 65536)%N -> escape cp = u_escape cp.
Proof.
  intros Hl Hu. unfold escape.
  repeat match goal with
         | |- context [(cp =? ?k)%N] =>
             destruct (cp =? k)%N eqn:?; Utf8Facts.tests; [lia |]
         end.
  destruct ((32 <=? cp)%N && (cp <=? 126)%N) eqn:T; Utf8Facts.tests; [lia |].
  destruct (cp <? 65536)%N eqn:T'; Utf8Facts.tests; [reflexivity | lia].
Qed.

Lemma escape_pair (cp : N) :
  (65536 <= cp)%N ->
  escape cp
  = u_escape (55296 + (cp - 65536) / 1024)
      ++ u_escape (56320 + (cp - 65536) mod 1024).
Proof.
  intros Hl. unfold escape.
  repeat match goal with
         | |- context [(cp =? ?k)%N] =>
             destruct (cp =? k)%N eqn:?; Utf8Facts.tests; [lia |]
         end.
  destruct ((32 <=? cp)%N && (cp <=? 126)%N) eqn:T; Utf8Facts.tests; [lia |].
  destruct (cp <? 65536)%N eqn:T'; Utf8Facts.tests; [lia | reflexivity].
Qed.

(** One character of text, whichever way it is written. *)
Lemma scan_escape (cp : N) (rest : chars) :
  Utf8.scalar cp = true -> (cp < 1114112)%N ->
  scan_string (escape cp ++ rest)
  = push_all (Utf8.encode cp) (scan_string rest).
Proof.
  intros Hs Hcp.
  destruct (cp <? 128)%N eqn:T1; Utf8Facts.tests.
  { pose proof (@scan_escape_ascii (ascii_of_N cp) rest) as H.
    rewrite N_ascii_embedding in H by lia. apply H. exact T1. }
  unfold Utf8.scalar, Utf8.high, Utf8.low in Hs.
  destruct (cp <? 65536)%N eqn:T2; Utf8Facts.tests.
  - rewrite escape_u by assumption. unfold u_escape. cbn [List.app].
    rewrite scan_string_u, hex4_round by assumption.
    destruct (Utf8.high cp) eqn:Hh; [| reflexivity].
    unfold Utf8.high in Hh. rewrite Hh in Hs. discriminate Hs.
  - rewrite escape_pair by assumption.
    set (hi := (55296 + (cp - 65536) / 1024)%N).
    set (lo := (56320 + (cp - 65536) mod 1024)%N).
    assert (Hhi : Utf8.high hi = true).
    { unfold Utf8.high. apply andb_true_iff.
      split; [apply N.leb_le | apply N.ltb_lt]; subst hi; Utf8Facts.arith. }
    assert (Hlo : Utf8.low lo = true).
    { unfold Utf8.low. apply andb_true_iff.
      split; [apply N.leb_le | apply N.ltb_lt]; subst lo; Utf8Facts.arith. }
    unfold u_escape. cbn [List.app].
    rewrite scan_string_u, hex4_round by (subst hi; Utf8Facts.arith).
    rewrite Hhi. cbv iota.
    change (Ascii.eqb backslash backslash && Ascii.eqb "u" "u") with true.
    cbv iota.
    rewrite hex4_round by (subst lo; Utf8Facts.arith).
    rewrite Hlo.
    replace (65536 + (hi - 55296) * 1024 + (lo - 56320))%N with cp
      by (subst hi lo; Utf8Facts.arith).
    reflexivity.
Qed.

Lemma scan_string_escaped (cps : list N) (rest : chars) :
  Forall (fun cp => Utf8.scalar cp = true) cps ->
  Forall (fun cp => (cp < 1114112)%N) cps ->
  scan_string (flat_map escape cps ++ quote :: rest)
  = Some (flat_map Utf8.encode cps, rest).
Proof.
  induction 1 as [| cp cps Hcp _ IH]; intros Hall; [reflexivity |].
  inversion Hall as [| ? ? Hlt Hrest]; subst.
  cbn [flat_map]. rewrite <- List.app_assoc, scan_escape, (IH Hrest)
    by assumption.
  reflexivity.
Qed.

(** The encoding of a text starts with a quote, and scanning what follows
    the quote gives the text back. *)
Lemma scan_string_encoded (s : string) (rest : chars) :
  Utf8.scalar_text s = true ->
  exists r,
    encode_string s ++ rest = quote :: r
    /\ scan_string r = Some (list_ascii_of_string s, rest).
Proof.
  unfold Utf8.scalar_text, encode_string. intros H.
  destruct (Utf8.decode (list_ascii_of_string s)) as [cps |] eqn:Hd;
    [| discriminate].
  destruct (@Utf8Facts.decode_encode _ _ Hd) as (Hbytes & Hall).
  exists (flat_map escape cps ++ quote :: rest).
  split; [cbn [List.app]; now rewrite <- List.app_assoc |].
  rewrite scan_string_escaped; [now rewrite Hbytes | | exact Hall].
  apply Forall_forall. intros cp Hin.
  eapply forallb_forall in H; eassumption.
Qed.

Lemma skip_ws_encode_string (s : string) (rest : chars) :
  Utf8.scalar_text s = true ->
  skip_ws (encode_string s ++ rest) = encode_string s ++ rest.
Proof.
  intros H. destruct (@scan_string_encoded s rest H) as (r & -> & _).
  now apply skip_ws_here.
Qed.

Lemma skip_ws_separator (rest : chars) :
  skip_ws (lit ": " ++ rest) = ":"%char :: " "%char :: rest.
Proof. reflexivity. Qed.

Lemma skip_ws_space (rest : chars) :
  skip_ws (" "%char :: rest) = skip_ws rest.
Proof. reflexivity. Qed.

(** *** Integers *)

Lemma digit_is_plain (c : ascii) :
  digit_of c <> None ->
  Ascii.eqb c quote = false
  /\ Ascii.eqb c "["%char = false
  /\ Ascii.eqb c "]"%char = false
  /\ Ascii.eqb c "{"%char = false
  /\ Ascii.eqb c "n"%char = false
  /\ Ascii.eqb c "t"%char = false
  /\ Ascii.eqb c "f"%char = false
  /\ Ascii.eqb c "N"%char = false
  /\ Ascii.eqb c "I"%char = false
  /\ Ascii.eqb c "-"%char = false
  /\ is_ws c = false.
Proof.
  destruct c as [[] [] [] [] [] [] [] []]; vm_compute; intros H;
    solve [repeat split | now contradiction H].
Qed.

Lemma digit_ends_nothing (c : ascii) (r : chars) :
  ends_number (c :: r) = true -> digit_of c = None.
Proof.
  unfold ends_number. destruct (digit_of c); [discriminate | reflexivity].
Qed.

Lemma scan_digits_printed (u : uint) (rest : chars) :
  no_digit rest ->
  scan_digits (lit (NilEmpty.string_of_uint u) ++ rest) = (u, rest).
Proof.
  intros Hrest.
  induction u as [| u IH | u IH | u IH | u IH | u IH | u IH | u IH | u IH
                  | u IH | u IH];
    try (cbn [NilEmpty.string_of_uint lit list_ascii_of_string List.app scan_digits];
         cbn [digit_of]; change (scan_digits ?l) with (scan_digits l);
         unfold lit in IH; cbn; cbn in IH; rewrite IH; reflexivity).
  cbn. destruct rest as [| c rest]; [reflexivity |].
  cbn [scan_digits]. now rewrite (@digit_ends_nothing _ _ Hrest).
Qed.

Lemma starts_float_after (rest : chars) :
  no_digit rest -> starts_float rest = false.
Proof.
  unfold no_digit, ends_number. destruct rest as [| c r]; [reflexivity |].
  destruct (digit_of c); [discriminate |].
  intros H. now apply negb_true_iff in H.
Qed.

Lemma nzhead_starts (u : uint) :
  match nzhead u with D0 _ => False | _ => True end.
Proof. induction u; cbn; auto. Qed.

Lemma canonical_unorm (u : uint) : canonical (unorm u) = true.
Proof.
  unfold unorm. pose proof (nzhead_starts u) as H.
  destruct (nzhead u); cbn; auto; contradiction.
Qed.

Lemma canonical_positive (p : positive) : canonical (Pos.to_uint p) = true.
Proof.
  replace (Pos.to_uint p) with (unorm (Pos.to_uint p)); [apply canonical_unorm |].
  rewrite <- (DecimalPos.Unsigned.to_of (Pos.to_uint p)).
  now rewrite DecimalPos.Unsigned.of_to.
Qed.

Lemma printed_positive (p : positive) :
  NilZero.string_of_uint (Pos.to_uint p) = NilEmpty.string_of_uint (Pos.to_uint p).
Proof.
  pose proof (DecimalPos.Unsigned.to_uint_nonnil p) as H.
  unfold NilZero.string_of_uint. destruct (Pos.to_uint p); congruence.
Qed.

Lemma printed_head (u : uint) :
  u <> Nil ->
  exists c r,
    lit (NilEmpty.string_of_uint u) = c :: r /\ digit_of c <> None.
Proof.
  destruct u; intros H; try congruence;
    cbn; eexists; eexists; (split; [reflexivity | discriminate]).
Qed.

Lemma of_uint_positive (p : positive) : Z.of_uint (Pos.to_uint p) = Z.pos p.
Proof.
  unfold Z.of_uint. now rewrite DecimalPos.Unsigned.of_to.
Qed.

Lemma few_digits (n : nat) :
  Nat.leb n digit_limit = true -> Nat.ltb digit_limit n = false.
Proof.
  intros H. apply Nat.leb_le in H. apply Nat.ltb_ge. exact H.
Qed.

Lemma parse_int_encoded (z : Z) (rest : chars) :
  Nat.leb (int_digits z) digit_limit = true ->
  no_digit rest ->
  parse_int (encode_int z ++ rest) = Decoded (z, rest).
Proof.
  intros Hz Hrest. unfold encode_int. unfold int_digits in Hz.
  pose proof (@starts_float_after rest Hrest) as Hfloat.
  destruct z as [| p | p]; cbn [Z.to_int NilZero.string_of_int] in *.
  - change (lit (NilZero.string_of_uint Decimal.zero)) with ["0"%char].
    cbn [List.app parse_int].
    change (Ascii.eqb "0" "-") with false. cbv iota zeta.
    pose proof (@scan_digits_printed (D0 Nil) rest Hrest) as Hscan.
    cbn [NilEmpty.string_of_uint lit list_ascii_of_string List.app] in Hscan.
    rewrite Hscan. cbn [canonical negb]. rewrite Hfloat. reflexivity.
  - rewrite printed_positive.
    destruct (printed_head (DecimalPos.Unsigned.to_uint_nonnil p))
      as (c & r & Hc & Hd).
    destruct (@digit_is_plain c Hd)
      as (_ & _ & _ & _ & _ & _ & _ & _ & _ & Hminus & _).
    unfold parse_int.
    pose proof (@scan_digits_printed (Pos.to_uint p) rest Hrest) as Hscan.
    rewrite Hc in *. cbn [List.app] in *. rewrite Hminus. cbv zeta.
    rewrite Hscan, canonical_positive, Hfloat, (@few_digits _ Hz).
    now rewrite of_uint_positive.
  - rewrite printed_positive. cbn [lit list_ascii_of_string List.app parse_int].
    change (Ascii.eqb "-" "-") with true. cbv iota zeta.
    pose proof (@scan_digits_printed (Pos.to_uint p) rest Hrest) as Hscan.
    unfold lit in Hscan.
    rewrite Hscan, canonical_positive, Hfloat, (@few_digits _ Hz).
    now rewrite of_uint_positive.
Qed.

(** *** Values *)

Lemma value_ind_nested (P : value -> Prop)
  (HNone : P VNone)
  (HBool : forall b, P (VBool b))
  (HInt : forall z, P (VInt z))
  (HStr : forall s, P (VStr s))
  (HList : forall items, Forall P items -> P (VList items))
  (HDict : forall members,
      Forall (fun kv => P (snd kv)) members -> P (VDict members))
  (HFloat : forall x, P (VFloat x)) :
  forall v, P v.
Proof.
  fix IH 1. intros [| b | z | s | items | members | x];
    [apply HNone | apply HBool | apply HInt | apply HStr | | | apply HFloat].
  - apply HList.
    induction items as [| x xs IHxs]; constructor; [apply IH | exact IHxs].
  - apply HDict.
    induction members as [| [k x] kvs IHkvs]; constructor;
      [apply IH | exact IHkvs].
Qed.

Lemma encode_int_head (z : Z) :
  exists c r,
    encode_int z = c :: r
    /\ is_ws c = false /\ Ascii.eqb c "]"%char = false
    /\ Ascii.eqb c quote = false /\ Ascii.eqb c "["%char = false
    /\ Ascii.eqb c "{"%char = false /\ Ascii.eqb c "n"%char = false
    /\ Ascii.eqb c "t"%char = false /\ Ascii.eqb c "f"%char = false
    /\ Ascii.eqb c "N"%char = false /\ Ascii.eqb c "I"%char = false
    /\ forall rest, strip_prefix (lit "-Infinity") (c :: r ++ rest) = None.
Proof.
  unfold encode_int. destruct z as [| p | p]; cbn [Z.to_int NilZero.string_of_int].
  - eexists; eexists; split; [reflexivity | repeat split].
  - rewrite printed_positive.
    destruct (printed_head (DecimalPos.Unsigned.to_uint_nonnil p))
      as (c & r & Hc & Hd).
    exists c, r. split; [exact Hc |].
    destruct (@digit_is_plain c Hd)
      as (? & ? & ? & ? & ? & ? & ? & ? & ? & Hminus & ?).
    repeat split; try assumption.
    unfold lit. cbn [list_ascii_of_string strip_prefix].
    rewrite Ascii.eqb_sym, Hminus. reflexivity.
  - rewrite printed_positive.
    destruct (printed_head (DecimalPos.Unsigned.to_uint_nonnil p))
      as (c & r & Hc & Hd).
    destruct (@digit_is_plain c Hd)
      as (_ & _ & _ & _ & _ & _ & _ & _ & HI & _).
    exists "-"%char, (c :: r). unfold lit in *.
    split; [cbn [list_ascii_of_string]; now rewrite Hc |].
    repeat split.
    cbn [list_ascii_of_string strip_prefix List.app].
    change (Ascii.eqb "-" "-") with true. cbv iota.
    rewrite Ascii.eqb_sym, HI. reflexivity.
Qed.

(** The encoding of a well-formed value starts with a character that is
    neither whitespace nor the end of an array. *)
Lemma encode_head (indent level : nat) (v : value) :
  well_formed v = true ->
  exists c r,
    encode indent level v = c :: r
    /\ is_ws c = false /\ Ascii.eqb c "]"%char = false.
Proof.
  destruct v as [| [] | z | s | [| x xs] | [| [k x] kvs] | f]; intros Hwf;
    try (eexists; eexists; split; [reflexivity | split; reflexivity]).
  - destruct (encode_int_head z) as (c & r & Hc & Hws & Hb & _).
    exists c, r. auto.
  - cbn [well_formed] in Hwf. cbn [encode].
    destruct (@scan_string_encoded s [] Hwf) as (r & Hr & _).
    rewrite List.app_nil_r in Hr. rewrite Hr.
    eexists; eexists; split; [reflexivity | split; reflexivity].
  - discriminate Hwf.
Qed.

Lemma skip_ws_encode (indent level : nat) (v : value) (rest : chars) :
  well_formed v = true ->
  skip_ws (encode indent level v ++ rest) = encode indent level v ++ rest.
Proof.
  intros Hwf.
  destruct (@encode_head indent level v Hwf) as (c & r & Hv & Hws & _).
  rewrite Hv. cbn [List.app]. now apply skip_ws_here.
Qed.

(** *** Dictionaries *)

Lemma distinct_not_before (l1 l2 : list string) (k : string) :
  distinct (l1 ++ k :: l2) = true -> existsb (String.eqb k) l1 = false.
Proof.
  induction l1 as [| x l1 IH]; [reflexivity |].
  cbn [List.app distinct existsb]. intros H.
  apply andb_true_iff in H. destruct H as (Hx & Hrest).
  apply negb_true_iff in Hx. rewrite existsb_app in Hx.
  apply orb_false_iff in Hx. destruct Hx as (_ & Hx). cbn [existsb] in Hx.
  apply orb_false_iff in Hx. destruct Hx as (Hxk & _).
  rewrite String.eqb_sym, Hxk. cbn. auto.
Qed.

Lemma dict_set_fresh (d : list (string * value)) (k : string) (v : value) :
  existsb (String.eqb k) (map fst d) = false ->
  dict_set d k v = d ++ [(k, v)].
Proof.
  induction d as [| [k' v'] d IH]; [reflexivity |].
  cbn [map fst existsb dict_set List.app]. intros H.
  apply orb_false_iff in H. destruct H as (Hk & Hd).
  rewrite Hk, (IH Hd). reflexivity.
Qed.

Lemma fold_dict_set (pairs acc : list (string * value)) :
  distinct (map fst (acc ++ pairs)) = true ->
  fold_left (fun d kv => dict_set d (fst kv) (snd kv)) pairs acc = acc ++ pairs.
Proof.
  revert acc. induction pairs as [| [k v] pairs IH]; intros acc H.
  - cbn. now rewrite List.app_nil_r.
  - cbn [fold_left fst snd]. rewrite dict_set_fresh.
    + rewrite IH; rewrite <- List.app_assoc; [reflexivity | exact H].
    + rewrite map_app in H. cbn [map fst] in H.
      now apply distinct_not_before in H.
Qed.

Lemma dict_of_pairs_distinct (pairs : list (string * value)) :
  distinct (map fst pairs) = true -> dict_of_pairs pairs = pairs.
Proof. intros H. unfold dict_of_pairs. now rewrite fold_dict_set. Qed.

(** *** The equations of the decoder *)

Lemma parse_value_array (fuel : nat) (r : chars) :
  parse_value (S fuel) ("["%char :: r) =
  match skip_ws r with
  | [] => Invalid
  | c' :: r' =>
      if Ascii.eqb c' "]"%char then Decoded (VList [], r')
      else match parse_items fuel (c' :: r') with
           | Decoded (items, r'') => Decoded (VList items, r'')
           | Invalid => Invalid
           | Unmodelled => Unmodelled
           end
  end.
Proof. reflexivity. Qed.

Lemma parse_value_object (fuel : nat) (r : chars) :
  parse_value (S fuel) ("{"%char :: r) =
  match skip_ws r with
  | [] => Invalid
  | c' :: r' =>
      if Ascii.eqb c' "}"%char then Decoded (VDict [], r')
      else match parse_members fuel (c' :: r') with
           | Decoded (pairs, r'') => Decoded (VDict (dict_of_pairs pairs), r'')
           | Invalid => Invalid
           | Unmodelled => Unmodelled
           end
  end.
Proof. reflexivity. Qed.

Lemma parse_value_string (fuel : nat) (r : chars) :
  parse_value (S fuel) (quote :: r) =
  match scan_string r with
  | Some (cs, r') => Decoded (VStr (string_of_list_ascii cs), r')
  | None => Invalid
  end.
Proof. reflexivity. Qed.

Lemma parse_items_step (fuel : nat) (s : chars) :
  parse_items (S fuel) s =
  match parse_value fuel s with
  | Invalid => Invalid
  | Unmodelled => Unmodelled
  | Decoded (v, r) =>
      match skip_ws r with
      | [] => Invalid
      | c :: r' =>
          if Ascii.eqb c "]"%char then Decoded ([v], r')
          else if Ascii.eqb c ","%char
          then add_item v (parse_items fuel (skip_ws r'))
          else Invalid
      end
  end.
Proof. reflexivity. Qed.

Lemma parse_members_step (fuel : nat) (r : chars) :
  parse_members (S fuel) (quote :: r) =
  match scan_string r with
  | None => Invalid
  | Some (k, r1) =>
      match skip_ws r1 with
      | [] => Invalid
      | c1 :: r2 =>
          if Ascii.eqb c1 ":"%char then
            match parse_value fuel (skip_ws r2) with
            | Invalid => Invalid
            | Unmodelled => Unmodelled
            | Decoded (v, r3) =>
                match skip_ws r3 with
                | [] => Invalid
                | c2 :: r4 =>
                    if Ascii.eqb c2 "}"%char
                    then Decoded ([(string_of_list_ascii k, v)], r4)
                    else if Ascii.eqb c2 ","%char
                    then add_item (string_of_list_ascii k, v)
                           (parse_members fuel (skip_ws r4))
                    else Invalid
                end
            end
          else Invalid
      end
  end.
Proof. reflexivity. Qed.

(** *** Arrays and objects *)

Ltac reassociate :=
  repeat first [rewrite <- List.app_assoc | progress cbn [List.app]].

Lemma parse_items_encoded (indent level : nat) (xs : list value) :
  forall (x : value) (fuel : nat) (rest : chars),
    well_formed x = true ->
    forallb well_formed xs = true ->
    decodes indent x ->
    Forall (decodes indent) xs ->
    list_sum (map (fun x => S (size x)) (x :: xs)) <= fuel ->
    parse_items fuel
      (encode indent (S level) x
         ++ flat_map
              (fun y =>
                 ","%char :: newline_indent indent (S level)
                   ++ encode indent (S level) y)
              xs
         ++ newline_indent indent level ++ "]"%char :: rest)
    = Decoded (x :: xs, rest).
Proof.
  induction xs as [| y ys IH]; intros x fuel rest Hwx Hwxs Hx Hxs Hfuel;
    (destruct fuel as [| m]; [cbn in Hfuel; lia |]);
    rewrite parse_items_step.
  - cbn [flat_map List.app].
    rewrite Hx; [| cbn in Hfuel; lia | reflexivity].
    rewrite skip_ws_newline_indent, skip_ws_here by reflexivity.
    reflexivity.
  - cbn [flat_map]. reassociate.
    rewrite Hx; [| cbn in Hfuel; lia | reflexivity].
    rewrite skip_ws_here by reflexivity.
    simpl (Ascii.eqb _ _). cbv iota.
    cbn [forallb] in Hwxs. apply andb_true_iff in Hwxs.
    destruct Hwxs as (Hwy & Hwys).
    rewrite skip_ws_newline_indent, skip_ws_encode by exact Hwy.
    inversion Hxs as [| ? ? Hy Hys]; subst.
    rewrite IH; [reflexivity | assumption | assumption | assumption
                | assumption |].
    cbn in Hfuel. cbn. lia.
Qed.

Lemma parse_members_encoded (indent level : nat) (kvs : list (string * value)) :
  forall (k : string) (x : value) (fuel : nat) (rest : chars),
    Utf8.scalar_text k = true ->
    well_formed x = true ->
    forallb (fun kv => Utf8.scalar_text (fst kv) && well_formed (snd kv)) kvs
    = true ->
    decodes indent x ->
    Forall (fun kv => decodes indent (snd kv)) kvs ->
    list_sum (map (fun kv => S (size (snd kv))) ((k, x) :: kvs)) <= fuel ->
    parse_members fuel
      (encode_string k ++ lit ": " ++ encode indent (S level) x
         ++ flat_map
              (fun kv =>
                 ","%char :: newline_indent indent (S level)
                   ++ encode_string (fst kv) ++ lit ": "
                   ++ encode indent (S level) (snd kv))
              kvs
         ++ newline_indent indent level ++ "}"%char :: rest)
    = Decoded ((k, x) :: kvs, rest).
Proof.
  induction kvs as [| [k' y] kvs IH];
    intros k x fuel rest Hk Hwx Hwkvs Hx Hkvs Hfuel;
    (destruct fuel as [| m]; [cbn in Hfuel; lia |]);
    match goal with
    | |- parse_members _ (encode_string k ++ ?t) = _ =>
        destruct (@scan_string_encoded k t Hk) as (r & -> & Hscan)
    end;
    rewrite parse_members_step, Hscan, skip_ws_separator;
    simpl (Ascii.eqb _ _); cbv iota;
    rewrite skip_ws_space, skip_ws_encode, string_of_list_ascii_of_string
      by exact Hwx.
  - cbn [flat_map List.app].
    rewrite Hx; [| cbn in Hfuel; lia | reflexivity].
    rewrite skip_ws_newline_indent, skip_ws_here by reflexivity.
    reflexivity.
  - cbn [flat_map fst snd]. reassociate.
    rewrite Hx; [| cbn in Hfuel; lia | reflexivity].
    rewrite skip_ws_here by reflexivity.
    simpl (Ascii.eqb _ _). cbv iota.
    cbn [forallb fst snd] in Hwkvs. apply andb_true_iff in Hwkvs.
    destruct Hwkvs as (Hky & Hwkvs). apply andb_true_iff in Hky.
    destruct Hky as (Hk' & Hwy).
    rewrite skip_ws_newline_indent, skip_ws_encode_string by exact Hk'.
    inversion Hkvs as [| ? ? Hy Hys]; subst. cbn [snd] in Hy.
    rewrite IH; [reflexivity | assumption | assumption | assumption
                | assumption | assumption |].
    cbn in Hfuel. cbn. lia.
Qed.

Lemma parse_value_number (fuel : nat) (c : ascii) (r : chars) :
  Ascii.eqb c quote = false ->
  Ascii.eqb c "["%char = false ->
  Ascii.eqb c "{"%char = false ->
  Ascii.eqb c "n"%char = false ->
  Ascii.eqb c "t"%char = false ->
  Ascii.eqb c "f"%char = false ->
  Ascii.eqb c "N"%char = false ->
  Ascii.eqb c "I"%char = false ->
  strip_prefix (lit "-Infinity") (c :: r) = None ->
  parse_value (S fuel) (c :: r) =
  match parse_int (c :: r) with
  | Decoded (z, r') => Decoded (VInt z, r')
  | Invalid => Invalid
  | Unmodelled => Unmodelled
  end.
Proof.
  intros H1 H2 H3 H4 H5 H6 H7 H8 H9. cbn [parse_value].
  rewrite H1, H2, H3, H4, H5, H6, H7, H8, H9. reflexivity.
Qed.

Lemma parse_value_array_encoded (fuel indent level level' : nat) (x : value)
  (t : chars) :
  well_formed x = true ->
  parse_value (S fuel)
    ("["%char :: newline_indent indent level ++ encode indent level' x ++ t) =
  match parse_items fuel (encode indent level' x ++ t) with
  | Decoded (items, r) => Decoded (VList items, r)
  | Invalid => Invalid
  | Unmodelled => Unmodelled
  end.
Proof.
  intros Hwf.
  rewrite parse_value_array, skip_ws_newline_indent, skip_ws_encode
    by exact Hwf.
  destruct (@encode_head indent level' x Hwf) as (c & r & Hv & _ & Hb).
  rewrite Hv. cbn [List.app]. rewrite Hb. reflexivity.
Qed.

Lemma parse_value_object_encoded (fuel indent level : nat) (k : string)
  (t : chars) :
  Utf8.scalar_text k = true ->
  parse_value (S fuel)
    ("{"%char :: newline_indent indent level ++ encode_string k ++ t) =
  match parse_members fuel (encode_string k ++ t) with
  | Decoded (pairs, r) => Decoded (VDict (dict_of_pairs pairs), r)
  | Invalid => Invalid
  | Unmodelled => Unmodelled
  end.
Proof.
  intros Hk.
  rewrite parse_value_object, skip_ws_newline_indent, skip_ws_encode_string
    by exact Hk.
  destruct (@scan_string_encoded k t Hk) as (r & -> & _).
  reflexivity.
Qed.

Lemma Forall_of_forallb {A} (P : A -> Prop) (f : A -> bool) (l : list A) :
  Forall (fun x => f x = true -> P x) l -> forallb f l = true -> Forall P l.
Proof.
  induction 1 as [| x l Hx _ IH]; intros Hall; constructor;
    cbn [forallb] in Hall; apply andb_true_iff in Hall; destruct Hall; auto.
Qed.

Lemma members_decode (indent : nat) (members : list (string * value)) :
  Forall (fun kv => well_formed (snd kv) = true -> decodes indent (snd kv))
    members ->
  forallb (fun kv => Utf8.scalar_text (fst kv) && well_formed (snd kv))
    members = true ->
  Forall (fun kv => decodes indent (snd kv)) members.
Proof.
  induction 1 as [| kv l Hkv _ IH]; intros Hall; constructor;
    cbn [forallb] in Hall; apply andb_true_iff in Hall;
    destruct Hall as (Hhere & Hrest);
    apply andb_true_iff in Hhere; destruct Hhere; auto.
Qed.

(** Decoding the encoding of a well-formed value gives the value back. *)
Lemma encode_decodes (indent : nat) (v : value) :
  well_formed v = true -> decodes indent v.
Proof.
  induction v as [| b | z | s | items IH | members IH | x]
    using value_ind_nested;
    intros Hwf level fuel rest Hfuel Hrest;
    (destruct fuel as [| m]; [cbn in Hfuel; lia |]).
  - reflexivity.
  - destruct b; reflexivity.
  - cbn [encode]. cbn [well_formed] in Hwf.
    pose proof (@parse_int_encoded z rest Hwf Hrest) as Hp.
    destruct (encode_int_head z)
      as (c & r & Hc & _ & _ & H1 & H2 & H3 & H4 & H5 & H6 & H7 & H8 & H9).
    rewrite Hc in *. cbn [List.app] in *.
    rewrite parse_value_number; [now rewrite Hp | assumption ..| apply H9].
  - cbn [encode]. cbn [well_formed] in Hwf.
    destruct (@scan_string_encoded s rest Hwf) as (r & -> & Hscan).
    now rewrite parse_value_string, Hscan, string_of_list_ascii_of_string.
  - destruct items as [| x xs]; [reflexivity |].
    cbn [well_formed] in Hwf.
    pose proof (@Forall_of_forallb _ _ _ _ IH Hwf) as Hall.
    inversion Hall as [| ? ? Hx Hxs]; subst.
    cbn [forallb] in Hwf. apply andb_true_iff in Hwf.
    destruct Hwf as (Hwx & Hwxs).
    cbn [encode]. reassociate.
    rewrite parse_value_array_encoded, parse_items_encoded;
      [reflexivity | assumption | assumption | assumption | assumption
      | | assumption].
    cbn [size] in Hfuel. lia.
  - destruct members as [| [k x] kvs]; [reflexivity |].
    cbn [well_formed] in Hwf. apply andb_true_iff in Hwf.
    destruct Hwf as (Hkeys & Hwf).
    pose proof (members_decode IH Hwf) as Hall.
    inversion Hall as [| ? ? Hx Hxs]; subst. cbn [snd] in Hx.
    cbn [forallb fst snd] in Hwf. apply andb_true_iff in Hwf.
    destruct Hwf as (Hkx & Hwkvs). apply andb_true_iff in Hkx.
    destruct Hkx as (Hk & Hwx).
    cbn [encode]. reassociate.
    rewrite parse_value_object_encoded, parse_members_encoded;
      [| assumption | assumption | assumption | assumption | assumption
       | | assumption].
    + now rewrite dict_of_pairs_distinct.
    + cbn [size] in Hfuel. lia.
  - discriminate Hwf.
Qed.

(** *** The length of an encoding bounds the fuel its decoding takes *)

Lemma list_sum_cons (a : nat) (l : list nat) :
  list_sum (a :: l) = a + list_sum l.
Proof. reflexivity. Qed.

Lemma list_sum_flat_map {A} (f : A -> chars) (g : A -> nat) (l : list A) :
  Forall (fun x => g x <= List.length (f x)) l ->
  list_sum (map g l) <= List.length (flat_map f l).
Proof.
  induction 1 as [| x l Hx _ IH]; [apply Nat.le_refl |].
  cbn [map flat_map]. rewrite list_sum_cons, List.length_app. lia.
Qed.

Lemma newline_indent_length (indent level : nat) :
  1 <= List.length (newline_indent indent level).
Proof. unfold newline_indent. cbn [List.length]. lia. Qed.

Lemma size_le_length (indent : nat) (v : value) :
  well_formed v = true ->
  forall level, size v <= List.length (encode indent level v).
Proof.
  induction v as [| b | z | s | items IH | members IH | x]
    using value_ind_nested;
    intros Hwf level.
  - cbn. lia.
  - destruct b; cbn; lia.
  - cbn [size encode].
    destruct (encode_int_head z) as (c & r & -> & _). cbn [List.length]. lia.
  - cbn [size encode]. cbn [well_formed] in Hwf.
    destruct (@scan_string_encoded s [] Hwf) as (r & Hr & _).
    rewrite List.app_nil_r in Hr. rewrite Hr. cbn [List.length]. lia.
  - destruct items as [| x xs]; [cbn; lia |].
    cbn [well_formed] in Hwf.
    pose proof (@Forall_of_forallb _ _ _ _ IH Hwf) as Hall.
    inversion Hall as [| ? ? Hx Hxs]; subst.
    cbn [size encode map List.length]. rewrite list_sum_cons.
    repeat rewrite List.length_app.
    pose proof (newline_indent_length indent (S level)) as Hn.
    pose proof (Hx (S level)) as Hx'.
    assert (list_sum (map (fun y => S (size y)) xs)
            <= List.length
                 (flat_map
                    (fun y =>
                       ","%char :: newline_indent indent (S level)
                         ++ encode indent (S level) y) xs)) as Hsum.
    { apply list_sum_flat_map.
      eapply Forall_impl; [| exact Hxs]. cbn beta. intros y Hy.
      cbn [List.length]. rewrite List.length_app.
      specialize (Hy (S level)). lia. }
    lia.
  - destruct members as [| [k x] kvs]; [cbn; lia |].
    cbn [well_formed] in Hwf. apply andb_true_iff in Hwf.
    destruct Hwf as (_ & Hwf).
    assert (Hall : Forall (fun kv => forall level,
                             size (snd kv)
                             <= List.length (encode indent level (snd kv)))
                     ((k, x) :: kvs)).
    { clear - IH Hwf. induction IH as [| kv l Hkv _ IHl]; constructor;
        cbn [forallb] in Hwf; apply andb_true_iff in Hwf;
        destruct Hwf as (Hhere & Hrest);
        apply andb_true_iff in Hhere; destruct Hhere; auto. }
    inversion Hall as [| ? ? Hx Hxs]; subst. cbn [snd] in Hx.
    cbn [size encode map List.length snd]. rewrite list_sum_cons.
    repeat rewrite List.length_app.
    pose proof (newline_indent_length indent (S level)) as Hn.
    pose proof (Hx (S level)) as Hx'.
    assert (list_sum (map (fun kv => S (size (snd kv))) kvs)
            <= List.length
                 (flat_map
                    (fun kv =>
                       ","%char :: newline_indent indent (S level)
                         ++ encode_string (fst kv) ++ lit ": "
                         ++ encode indent (S level) (snd kv)) kvs)) as Hsum.
    { apply list_sum_flat_map.
      eapply Forall_impl; [| exact Hxs]. cbn beta. intros kv Hy.
      cbn [List.length]. repeat rewrite List.length_app.
      specialize (Hy (S level)). lia. }
    lia.
  - discriminate Hwf.
Qed.

(** [json.loads(json.dumps(v, indent=indent)) == v] *)
Lemma loads_dumps (indent : nat) (v : value) :
  well_formed v = true ->
  depth v <= depth_limit ->
  loads (dumps indent v) = Decoded v.
Proof.
  intros Hwf Hdepth. unfold loads, dumps.
  rewrite list_ascii_of_string_of_list_ascii.
  rewrite <- (List.app_nil_r (encode indent 0 v)) at 2.
  rewrite skip_ws_encode by exact Hwf.
  rewrite (@encode_decodes indent v Hwf); [| | reflexivity].
  - apply Nat.leb_le in Hdepth. rewrite Hdepth. reflexivity.
  - pose proof (@size_le_length indent v Hwf 0). lia.
Qed.

(** A well-formed value is one the encoder gives the text of. *)
Lemma well_formed_modelled (v : value) :
  well_formed v = true -> modelled v = true.
Proof.
  assert (Htext : forall s, Utf8.scalar_text s = true -> Utf8.valid s = true).
  { intros s. unfold Utf8.scalar_text, Utf8.valid.
    destruct (Utf8.decode _); [reflexivity | discriminate]. }
  induction v as [| b | z | s | items IH | members IH | x]
    using value_ind_nested; intros Hwf; try reflexivity;
    cbn [well_formed modelled] in *.
  - exact Hwf.
  - now apply Htext.
  - induction IH as [| y l Hy _ IHl]; [reflexivity |].
    cbn [forallb] in *. apply andb_true_iff in Hwf.
    destruct Hwf as (Hhere & Hrest). now rewrite (Hy Hhere), (IHl Hrest).
  - apply andb_true_iff in Hwf. destruct Hwf as (_ & Hwf).
    induction IH as [| kv l Hkv _ IHl]; [reflexivity |].
    cbn [forallb] in *. apply andb_true_iff in Hwf.
    destruct Hwf as (Hhere & Hrest). apply andb_true_iff in Hhere.
    destruct Hhere as (Hk & Hv).
    now rewrite (Htext _ Hk), (Hkv Hv), (IHl Hrest).
  - discriminate Hwf.
Qed.

End JsonFacts.

(** ** The report file *)

Section Report.

Context {X : Type} (O : Outside X).

Lemma route_assignments_well_formed (report : list value) :
  Forall (route_assignment Utf8.scalar_text) report ->
  well_formed (VList report) = true.
Proof.
  induction 1 as [| a report (q & c & route & -> & Hq & Hc & Hr) _ IH];
    [reflexivity |].
  cbn [well_formed forallb] in *. rewrite IH.
  cbv beta iota delta [List.map fst snd].
  change (distinct ["query"; "category"; "route"]) with true.
  change (Utf8.scalar_text "query") with true.
  change (Utf8.scalar_text "category") with true.
  change (Utf8.scalar_text "route") with true.
  cbn [well_formed]. rewrite Hq, Hc.
  destruct route as [name |]; cbn [route_value well_formed];
    [rewrite Hr |]; reflexivity.
Qed.

Lemma route_assignments_shallow (ok : string -> bool) (report : list value) :
  Forall (route_assignment ok) report -> Json.depth (VList report) <= 2.
Proof.
  intros H. cbn [Json.depth]. apply le_n_S.
  induction H as [| a report (q & c & route & -> & _) _ IH];
    [apply Nat.le_0_l |].
  cbn [fold_right]. apply Nat.max_lub; [| exact IH].
  destruct route; cbn; apply Nat.le_refl.
Qed.

(** Decoding the text of a report gives the report. *)
Lemma report_reads_back (report : list value) :
  json_as_modelled O ->
  Forall (route_assignment Utf8.scalar_text) report ->
  json_loads O (json_dumps O (VList report)) = Some (VList report).
Proof.
  intros (Hdumps & Hloads & _) Hreport.
  pose proof (route_assignments_shallow Hreport) as Hdepth.
  apply route_assignments_well_formed in Hreport.
  assert (Hlimit : Json.depth (VList report) <= Json.depth_limit)
    by (unfold Json.depth_limit; lia).
  rewrite Hdumps.
  - exact (Hloads _ _ (@JsonFacts.loads_dumps 4 _ Hreport Hlimit)).
  - unfold Json.in_model.
    rewrite (@JsonFacts.well_formed_modelled _ Hreport).
    apply Nat.leb_le. exact Hlimit.
Qed.


End Report.

(** ** The threshold of the router *)

Section Threshold.

Variable score : Type.
Variable geb : score -> score -> bool.
Variable similarity : string -> Router.route -> score.

Hypothesis geb_trans :
  forall a b c, geb a b = true -> geb b c = true -> geb a c = true.

(** C8.  For a fixed query, route set and similarity, raising the
    threshold from [t] to [t'] keeps every no-match a no-match, and a match
    at [t'] is the same match at [t]. *)
Theorem threshold_antitone (routes : list Router.route) (query : string)
  (t t' : score) :
  geb t' t = true ->
  (Router.classify geb similarity t routes query = None ->
   Router.classify geb similarity t' routes query = None)
  /\ (forall name,
        Router.classify geb similarity t' routes query = Some name ->
        Router.classify geb similarity t routes query = Some name).
Proof.
  intros Hle. unfold Router.classify.
  destruct (Router.nearest geb similarity query routes) as [[r s] |];
    [| split; [reflexivity | discriminate]].
  destruct (geb s t') eqn:Ht'.
  - rewrite (@geb_trans s t' t Ht' Hle). split; [discriminate | auto].
  - split; [reflexivity | discriminate].
Qed.

End Threshold.

(** ** The properties in the reference world *)

Lemma Zgeb_trans (a b c : Z) :
  Z.geb a b = true -> Z.geb b c = true -> Z.geb a c = true.
Proof. rewrite !Z.geb_le. lia. Qed.

(** C3 as it was claimed does not hold: an empty string is a present
    [sql_query], and the executor never attempts it. *)
Lemma empty_query_is_not_attempted :
  ~ (forall (O : Outside Reference.state) (response : option string)
            (w : world Reference.state) (s : string),
        result (extract_sql_query O response w) = Ok (VStr s) ->
        executions (emitted (handle_response O response w)) = [s]).
Proof.
  intros H.
  specialize (H Reference.plain (Some (Reference.reply_with EmptyString))
                Reference.start EmptyString).
  vm_compute in H. specialize (H eq_refl). discriminate H.
Qed.

Lemma reference_json_as_modelled (reply : option string)
  (outage : string -> bool) :
  json_as_modelled (Reference.outside reply outage).
Proof.
  split; [reflexivity |].
  split; intros text; [intros v |]; intros H;
    change (json_loads (Reference.outside reply outage) text)
      with (match Json.loads text with
            | Json.Decoded v => Some v
            | _ => None
            end);
    rewrite H; [reflexivity | split; reflexivity].
Qed.


Lemma lenient_reply_escapes_witness :
  handle_response Reference.plain (Some Reference.nan_reply) Reference.start
  = Ran (Raise TypeError) Reference.start
      [Print (PResponse (Some Reference.nan_reply))]
  /\ connections
       (emitted (handle_response Reference.plain
                   (Some Reference.nan_query_reply) Reference.start))
     = 1.
Proof.
  split.
  - apply (proj1 (@lenient_reply_escapes _ Reference.plain
                    Reference.nan_reply S754_nan Reference.start)).
    vm_compute. reflexivity.
  - apply (proj1 (proj2 (@lenient_reply_escapes _ Reference.plain
                           Reference.nan_query_reply S754_nan
                           Reference.start))).
    + vm_compute. reflexivity.
    + reflexivity.
Defined.

Lemma missing_key_reply_raises_witness :
  exists e,
    handle_response Reference.plain (Some "{}") Reference.start
    = Ran (Raise e) Reference.start [Print (PResponse (Some "{}"))]
    /\ (e = KeyError "sql_query" \/ e = TypeError).
Proof.
  apply (@missing_key_reply_raises _ Reference.plain "{}" (VDict [])
           Reference.start); reflexivity.
Defined.

Lemma failed_statement_leaves_connection_open_witness :
  open_connections
    (after (get_table_sample Reference.plain "data/data.db" "missing"
              Reference.start))
  = 1.
Proof.
  apply (proj1 (proj2 (@failed_statement_leaves_connection_open _
                         Reference.plain Reference.start))
           "data/data.db" "missing" "SELECT * FROM missing LIMIT 3").
  vm_compute. right; right; left. reflexivity.
Defined.

Lemma nonempty_query_attempted_once_witness :
  executions
    (emitted (handle_response Reference.plain
                (Some (Reference.reply_with "SELECT 1")) Reference.start))
  = ["SELECT 1"].
Proof.
  assert (H : result (extract_sql_query Reference.plain
                        (Some (Reference.reply_with "SELECT 1"))
                        Reference.start)
              = Ok (VStr "SELECT 1")) by (vm_compute; reflexivity).
  destruct (@nonempty_query_attempted_once _ Reference.plain _ _ _ H)
    as (_ & _ & Hs).
  destruct (Hs "SELECT 1" eq_refl) as (_ & _ & _ & Hrun); [discriminate |].
  apply (Hrun (Reference.State []) (Reference.State [])); reflexivity.
Defined.

Lemma get_column_info_rejected_statement_witness :
  Reference.columns_of "it's" = Some Reference.notes_schema
  /\ get_column_info Reference.plain "data/data.db" "it's" Reference.start
     = Ran (Ok None)
         (World (Reference.State []) 1 Reference.no_files)
         [ Connect "data/data.db" true; Cursor true;
           Execute "PRAGMA table_info('it's')" false;
           Print (PSqliteError (SqliteError "syntax error")) ].
Proof.
  split; [reflexivity |].
  apply (@get_column_info_rejected_statement _ Reference.plain
           "data/data.db" "it's" "syntax error" Reference.start
           (Reference.State []) (Reference.State []) (Reference.State []));
    reflexivity.
Defined.

Lemma batch_report_one_per_record_in_order_witness :
  exists report,
    result (router_py Reference.plain Reference.batch_start) = Ok tt
    /\ files (after (router_py Reference.plain Reference.batch_start))
         "report.json"
       = Some (json_dumps Reference.plain (VList report))
    /\ Forall2 assignment_of Reference.queries report
    /\ length report = length Reference.queries
    /\ map (fun a => getitem a "query") report
       = map (fun r => getitem r "query") Reference.queries.
Proof.
  apply (@batch_report_one_per_record_in_order _ Reference.plain
           Reference.batch_start Reference.queries_json
           (VList Reference.queries) Reference.queries).
  - reflexivity.
  - vm_compute. reflexivity.
  - reflexivity.
  - constructor; [| constructor; [| constructor]];
      do 2 eexists; split; reflexivity.
  - vm_compute. intros H. in_list H.
  - intros t. vm_compute. intros H. in_list H.
Defined.

Lemma failed_call_writes_no_report_witness :
  (exists e, result (router_py Reference.failing Reference.batch_start) = Raise e)
  /\ files (after (router_py Reference.failing Reference.batch_start))
     = files Reference.batch_start
  /\ (forall p c,
        ~ In (WriteFile p c)
            (emitted (router_py Reference.failing Reference.batch_start))).
Proof.
  apply (@failed_call_writes_no_report _ Reference.failing
           Reference.batch_start).
  exists (VStr "tallest mountain"). vm_compute. do 3 right. left. reflexivity.
Defined.

Lemma threshold_antitone_witness :
  Router.classify Z.geb Reference.similarity 95%Z Reference.routes
    "tallest mountain" = None
  /\ Router.classify Z.geb Reference.similarity 16%Z Reference.routes
       "engine" = Some "cars".
Proof.
  split.
  - apply (proj1 (@threshold_antitone Z Z.geb Reference.similarity Zgeb_trans
                    Reference.routes "tallest mountain" 16%Z 95%Z
                    eq_refl)).
    reflexivity.
  - apply (proj2 (@threshold_antitone Z Z.geb Reference.similarity Zgeb_trans
                    Reference.routes "engine" 16%Z 50%Z eq_refl)).
    reflexivity.
Defined.


(** ** The helpers of [utils/helper.py], beyond the claims *)

Section Helpers.

Context {X : Type} (O : Outside X).

Ltac call :=
  match goal with
  | |- context [sqlite_connect O ?p ?x] =>
      destruct (sqlite_connect O p x) as [[[] | ?e] ?x1] eqn:?
  | |- context [sqlite_cursor O ?x] =>
      destruct (sqlite_cursor O x) as [[[] | ?e] ?x1] eqn:?
  | |- context [sqlite_execute O ?s ?x] =>
      destruct (sqlite_execute O s x) as [[[] | ?e] ?x1] eqn:?
  | |- context [sqlite_fetchall O ?x] =>
      destruct (sqlite_fetchall O x) as [[?rows | ?e] ?x1] eqn:?
  end; cbn.

Ltac handled :=
  match goal with
  | |- context [is_sqlite_error ?e] =>
      destruct (is_sqlite_error e) eqn:?; cbn;
      try (destruct (is_Exception e) eqn:?; cbn)
  end.

(** X2.  When the four driver calls succeed, [get_table_sample] returns the
    rows [fetchall] gave, as they are, having run the one statement
    [SELECT * FROM <table> LIMIT 3] and closed its connection. *)
Theorem get_table_sample_returns_fetched_rows (db_file table : string)
  (w : world X) (x1 x2 x3 x4 : X) (rows : list row) :
  sqlite_connect O db_file (outside w) = (Ok tt, x1) ->
  sqlite_cursor O x1 = (Ok tt, x2) ->
  sqlite_execute O ("SELECT * FROM " ++ table ++ " LIMIT 3") x2 = (Ok tt, x3) ->
  sqlite_fetchall O x3 = (Ok rows, x4) ->
  get_table_sample O db_file table w =
  Ran (Ok rows)
      (World (sqlite_close O x4) (open_connections w) (files w))
      [ Connect db_file true; Cursor true;
        Execute ("SELECT * FROM " ++ table ++ " LIMIT 3") true;
        Fetchall true; Close ].
Proof.
  intros Hconnect Hcursor Hexecute Hfetch.
  unfold get_table_sample, connect, cursor, execute, fetchall, close. step.
  rewrite Hconnect. cbn -[append]. rewrite Hcursor. cbn -[append].
  rewrite Hexecute. cbn -[append]. rewrite Hfetch. reflexivity.
Qed.

(** X3.  A sample that is not empty can only come from the path on which the
    connection was closed: every failure turns into the empty list. *)
Theorem nonempty_sample_means_closed (db_file table : string) (w : world X)
  (rows : list row) :
  result (get_table_sample O db_file table w) = Ok rows ->
  rows <> [] ->
  closed (emitted (get_table_sample O db_file table w)) = true
  /\ open_connections (after (get_table_sample O db_file table w))
     = open_connections w.
Proof.
  unfold get_table_sample, connect, cursor, execute, fetchall, close. step.
  call; [| handled; intros H; try discriminate H; injection H as <-; congruence].
  call; [| handled; intros H; try discriminate H; injection H as <-; congruence].
  call; [| handled; intros H; try discriminate H; injection H as <-; congruence].
  call; [| handled; intros H; try discriminate H; injection H as <-; congruence].
  intros _ _. split; reflexivity.
Qed.

Lemma describe_all_fails_alike (rows : list row) (e : exn) :
  describe_all rows = Raise e -> e = IndexError.
Proof.
  induction rows as [| r rows IH]; cbn [describe_all]; [discriminate |].
  destruct r as [| a [| b [| c r]]]; cbn; try congruence.
  destruct (describe_all rows); cbn; [discriminate |].
  intros H. injection H as <-. now apply IH.
Qed.

Lemma describe_all_fields (rows : list row) :
  forall details,
    describe_all rows = Ok details -> Forall2 describes rows details.
Proof.
  induction rows as [| r rows IH]; cbn [describe_all]; intros details H.
  - injection H as <-. constructor.
  - destruct r as [| a [| b [| c r]]]; cbn in H; try discriminate.
    destruct (describe_all rows) as [ds |]; cbn in H; [| discriminate].
    injection H as <-. constructor; [| now apply IH].
    exists r. reflexivity.
Qed.

Lemma describe_all_long (rows : list row) :
  Forall (fun r => 3 <= List.length r) rows ->
  exists details, describe_all rows = Ok details.
Proof.
  induction 1 as [| r rows Hr _ (ds & IH)]; [now exists [] |].
  destruct r as [| a [| b [| c r]]]; cbn in Hr; try lia.
  cbn. rewrite IH. cbn. eauto.
Qed.

(** X4.  What [get_column_info] returns when the driver calls succeed: the
    descriptors are the first three fields of the fetched rows, row by row
    and in their order, and a list is returned as soon as every row has
    three fields. *)
Theorem get_column_info_first_three_fields (db_file table : string)
  (w : world X) (x1 x2 x3 x4 : X) (schema_info : list row) :
  sqlite_connect O db_file (outside w) = (Ok tt, x1) ->
  sqlite_cursor O x1 = (Ok tt, x2) ->
  sqlite_execute O ("PRAGMA table_info('" ++ table ++ "')") x2 = (Ok tt, x3) ->
  sqlite_fetchall O x3 = (Ok schema_info, x4) ->
  (forall details,
      result (get_column_info O db_file table w) = Ok (Some details) ->
      Forall2 describes schema_info details)
  /\ (Forall (fun r => 3 <= List.length r) schema_info ->
      exists details,
        result (get_column_info O db_file table w) = Ok (Some details)).
Proof.
  intros Hconnect Hcursor Hexecute Hfetch.
  unfold get_column_info, connect, cursor, execute, fetchall, close. step.
  rewrite Hconnect. cbn -[append]. rewrite Hcursor. cbn -[append].
  rewrite Hexecute. cbn. rewrite Hfetch. cbn.
  destruct (describe_all schema_info) as [ds | e] eqn:Hd; cbn.
  - split; [| eauto]. intros details H. injection H as <-.
    now apply describe_all_fields.
  - pose proof (@describe_all_fails_alike schema_info e Hd) as ->. cbn.
    split; [discriminate |].
    intros Hlong. destruct (@describe_all_long schema_info Hlong) as (ds & Hds).
    congruence.
Qed.

End Helpers.

(** ** Connections and the executor of [nl2sql_converter.py] *)

Section Executor.

Context {X : Type} (O : Outside X).

Ltac call :=
  match goal with
  | |- context [sqlite_connect O ?p ?x] =>
      destruct (sqlite_connect O p x) as [[[] | ?e] ?x1] eqn:?
  | |- context [sqlite_cursor O ?x] =>
      destruct (sqlite_cursor O x) as [[[] | ?e] ?x1] eqn:?
  | |- context [sqlite_execute O ?s ?x] =>
      destruct (sqlite_execute O s x) as [[[] | ?e] ?x1] eqn:?
  | |- context [sqlite_fetchall O ?x] =>
      destruct (sqlite_fetchall O x) as [[?rows | ?e] ?x1] eqn:?
  end; cbn.

Ltac handled :=
  match goal with
  | |- context [is_sqlite_error ?e] =>
      destruct (is_sqlite_error e) eqn:?; cbn;
      try (destruct (is_Exception e) eqn:?; cbn)
  end.

Ltac escaped :=
  try discriminate;
  try (let H := fresh in
       intros H; injection H as H; subst; cbn in *; congruence).


Lemma printed_rows_rows (rows : list row) (evs : list event) :
  printed_rows (map (fun r => Print (PRow r)) rows ++ evs)
  = (rows ++ printed_rows evs)%list.
Proof.
  induction rows as [| r rows IH]; [reflexivity |].
  cbn [map List.app]. change (printed_rows (Print (PRow r) :: ?l))
    with (r :: printed_rows l). now rewrite IH.
Qed.


(** X6.  No [sqlite3.Error] leaves the executor: whatever SQLite raises while
    the query runs is reported and the script goes on. *)
Theorem executor_contains_sqlite_errors (sql_query : value) (w : world X)
  (e : exn) :
  is_sqlite_error e = true ->
  result (run_sql_query O sql_query w) <> Raise e.
Proof.
  intros He. unfold run_sql_query.
  destruct (truthy sql_query); [| discriminate].
  unfold connect, cursor, execute_value, execute, fetchall, close. step.
  call; [| handled; escaped].
  call; [| handled; escaped].
  destruct sql_query as [| b | z | s | items | members | fl]; cbn; escaped.
  call; [| handled; escaped].
  call; [| handled; escaped].
  rewrite for_each_print_rows. cbn. discriminate.
Qed.

(** X7.  A reply that carries a non-empty SQL text, on a database that
    answers: the text is run as the model gave it, the header is printed,
    then every fetched row once and in the order [fetchall] gave them, and
    the connection is closed; the script ends holding that text. *)
Theorem reply_query_runs_verbatim (reply s : string)
  (members : list (string * value)) (w : world X)
  (x1 x2 x3 x4 : X) (rows : list row) :
  json_loads O reply = Some (VDict members) ->
  lookup "sql_query" members = Some (VStr s) ->
  s <> EmptyString ->
  sqlite_connect O db_path (outside w) = (Ok tt, x1) ->
  sqlite_cursor O x1 = (Ok tt, x2) ->
  sqlite_execute O s x2 = (Ok tt, x3) ->
  sqlite_fetchall O x3 = (Ok rows, x4) ->
  handle_response O (Some reply) w
  = Ran (Ok (VStr s))
      (World (sqlite_close O x4) (open_connections w) (files w))
      (Print (PResponse (Some reply))
         :: Connect db_path true :: Cursor true :: Execute s true
         :: Fetchall true :: Print PResultHeader
         :: map (fun r => Print (PRow r)) rows ++ [Close])%list.
Proof.
  intros Hloads Hlookup Hs Hconnect Hcursor Hexecute Hfetch.
  assert (Hv : extract_sql_query O (Some reply) w = Ran (Ok (VStr s)) w []).
  { unfold extract_sql_query, loads. rewrite Hloads. step.
    rewrite Hlookup. reflexivity. }
  assert (Hrun : run_sql_query O (VStr s) w
                 = Ran (Ok tt)
                     (World (sqlite_close O x4) (open_connections w) (files w))
                     (Connect db_path true :: Cursor true :: Execute s true
                        :: Fetchall true :: Print PResultHeader
                        :: map (fun r => Print (PRow r)) rows ++ [Close])%list).
  { unfold run_sql_query. rewrite (truthy_nonempty Hs).
    unfold connect, cursor, execute_value, execute, fetchall, close. step.
    rewrite Hconnect. cbn. rewrite Hcursor. cbn. rewrite Hexecute. cbn.
    rewrite Hfetch. cbn. rewrite for_each_print_rows. reflexivity. }
  rewrite (@handle_response_run _ O (Some reply) w (VStr s));
    [| now rewrite Hv].
  rewrite Hv, Hrun. reflexivity.
Qed.

(** X8.  A [sql_query] that is truthy but not a string (a number, a list, an
    object) reaches [cursor.execute], which refuses it with an exception
    that is not an [sqlite3.Error]: the script ends with it, no statement
    was run, and the connection stays open. *)
Theorem non_text_query_escapes (sql_query : value) (w : world X) (x1 x2 : X) :
  truthy sql_query = true ->
  (forall s, sql_query <> VStr s) ->
  sqlite_connect O db_path (outside w) = (Ok tt, x1) ->
  sqlite_cursor O x1 = (Ok tt, x2) ->
  let r := run_sql_query O sql_query w in
  (exists e, result r = Raise e /\ is_sqlite_error e = false)
  /\ executions (emitted r) = []
  /\ open_connections (after r) = S (open_connections w).
Proof.
  intros Ht Hv Hconnect Hcursor. cbv zeta.
  unfold run_sql_query. rewrite Ht.
  unfold connect, cursor, execute_value, execute, fetchall, close. step.
  rewrite Hconnect. cbn. rewrite Hcursor. cbn.
  destruct sql_query as [| b | z | s | items | members | fl]; cbn;
    try (split; [exists TypeError; split; reflexivity | split; reflexivity]).
  now destruct (Hv s).
Qed.

(** X9.  What can end the extraction of [sql_query] with an exception.  A
    completion without content ([None]) is printed and then ends the
    script with the [TypeError] of [json.loads].  Besides that, a reply
    that decodes and has no key [sql_query] does, and so does a reply on
    which [json.loads] fails with something other than [JSONDecodeError]
    ([RecursionError] for a reply nested too deep, [ValueError] for an
    integer of too many digits); a [JSONDecodeError] never leaves the
    [try]. *)
Theorem extraction_failures (w : world X) :
  handle_response O None w
  = Ran (Raise TypeError) w [Print (PResponse None)]
  /\ (forall response e,
        result (extract_sql_query O response w) = Raise e ->
        (response = None /\ e = TypeError)
        \/ (exists text v,
              response = Some text
              /\ json_loads O text = Some v
              /\ has_key v "sql_query" = false
              /\ (e = KeyError "sql_query" \/ e = TypeError))
        \/ (exists text,
              response = Some text
              /\ json_loads O text = None
              /\ e = json_loads_error O text
              /\ is_json_decode_error e = false)).
Proof.
  split; [reflexivity |].
  intros response e. unfold extract_sql_query, loads.
  destruct response as [text |].
  2: { cbn. intros H. injection H as <-. now left. }
  destruct (json_loads O text) as [v |] eqn:Hloads.
  2: { step.
       destruct (is_json_decode_error (json_loads_error O text)) eqn:He;
         cbn; [discriminate |].
       intros H. injection H as <-. right; right. exists text. auto. }
  step. intros H. right; left. exists text, v.
  destruct v as [| b | z | s | items | members | fl]; cbn in H;
    try (injection H as <-; repeat split; auto).
  unfold has_key. destruct (lookup "sql_query" members); cbn in H;
    [discriminate |].
  injection H as <-. repeat split; auto.
Qed.

(** X10.  A topic other than the two the script knows binds none of the four
    variables of the prompt: the script ends with [NameError] at the first
    of them, before any call to the database or the model. *)
Theorem unknown_topic_raises (topic : string) (w : world X) :
  topic <> "cars" ->
  topic <> "countries" ->
  nl2sql_converter O topic w = Ran (Raise (NameError "table_name")) w [].
Proof.
  intros Hcars Hcountries.
  apply String.eqb_neq in Hcars. apply String.eqb_neq in Hcountries.
  unfold nl2sql_converter, get_database_info.
  rewrite Hcars, Hcountries. reflexivity.
Qed.

Lemma build_prompt_total (tn : string) (ci : option (list column_descriptor))
  (ts : list row) (q : string) :
  exists out, build_prompt O tn ci ts q = Ok out.
Proof. eexists. unfold build_prompt. vm_compute. reflexivity. Qed.

(** X11.  With the database out of reach the script as configured still asks the
    model: both helpers report the error and return [None] and the empty
    list, and the prompt built from these, for the table [countries_data]
    and the second question on countries, is sent.  Up to there nothing but
    the two failed connections and their reports happened. *)
Theorem unreachable_database_still_asks_model (w : world X) :
  (forall x, exists msg x',
      sqlite_connect O db_path x = (Raise (SqliteError msg), x')) ->
  exists prompt ok msg1 msg2 rest,
    build_prompt O "countries_data" None []
      "How many habitants does Egypt have?" = Ok prompt
    /\ emitted (nl2sql_converter O TOPIC_TO_TEST w)
       = Connect db_path false :: Print (PSqliteError (SqliteError msg1))
           :: Connect db_path false :: Print (PSqliteError (SqliteError msg2))
           :: Completion prompt ok :: rest.
Proof.
  intros Hdown.
  destruct (build_prompt_total "countries_data" None []
              "How many habitants does Egypt have?") as (prompt & Hp).
  exists prompt.
  destruct (Hdown (outside w)) as (msg1 & x1 & H1).
  destruct (Hdown x1) as (msg2 & x2 & H2).
  unfold nl2sql_converter, TOPIC_TO_TEST, get_database_info.
  cbn [String.eqb Ascii.eqb Bool.eqb].
  unfold get_column_info, get_table_sample, connect, invoke_llm. step.
  rewrite H1. cbn -[build_prompt handle_response]. rewrite H2.
  cbn -[build_prompt handle_response]. rewrite Hp.
  cbn -[build_prompt handle_response].
  destruct (chat_completion O model_id prompt x2) as [[response | e] x3];
    cbn -[handle_response].
  - destruct (handle_response O response _) as [r w' evs].
    exists true, msg1, msg2, evs. split; reflexivity.
  - exists false, msg1, msg2, []. split; reflexivity.
Qed.

End Executor.

(** ** The batch script, beyond the claims *)

Section BatchScript.

Context {X : Type} (O : Outside X).

Lemma writes_app (l1 l2 : list event) :
  writes (l1 ++ l2) = (writes l1 ++ writes l2)%list.
Proof. apply List.flat_map_app. Qed.

Lemma classified_app (l1 l2 : list event) :
  classified (l1 ++ l2) = (classified l1 ++ classified l2)%list.
Proof. apply List.flat_map_app. Qed.

Lemma no_writes (evs : list event) :
  (forall p c, ~ In (WriteFile p c) evs) -> writes evs = [].
Proof.
  induction evs as [| e evs IH]; intros H; [reflexivity |].
  destruct e as [f o | o | q o | o | | q o | pr | o | t o | f o | f c'];
    try (apply IH; intros p c Hin; apply (H p c); now right).
  exfalso. apply (H f c'). now left.
Qed.

(** A turn of the loop that ends normally made exactly one call of the
    router, on the record's query. *)
Lemma classify_record_ok (record a : value) (w w' : world X)
  (evs : list event) :
  classify_record O record w = Ran (Ok a) w' evs ->
  exists q, getitem record "query" = Ok q /\ evs = [Classify q true].
Proof.
  unfold classify_record, call_router.
  cbv beta iota zeta delta [bind ret raise lift result after emitted].
  destruct (getitem record "query") as [q | e]; [| discriminate].
  destruct (router_call O q (outside w)) as [[route | e] x]; [| discriminate].
  destruct (getitem record "category") as [c | e]; [| discriminate].
  cbn. intros H. injection H as _ _ <-. eauto.
Qed.

Lemma build_report_calls (records : list value) :
  forall (report : list value) (w : world X) (out : list value),
    result (build_report O records report w) = Ok out ->
    map Ok (classified (emitted (build_report O records report w)))
    = map (fun r => getitem r "query") records.
Proof.
  induction records as [| record rest IH]; intros report w out;
    [reflexivity |].
  cbn [build_report]. rewrite run_bind.
  destruct (classify_record O record w) as [[a | e] w' evs] eqn:Hrun;
    cbn [result after emitted]; [| discriminate].
  destruct (classify_record_ok _ _ Hrun) as (q & Hq & ->).
  intros Hout. cbn [List.app map]. rewrite Hq.
  change (classified (Classify q true :: ?l)) with (q :: classified l).
  cbn [map]. f_equal. eapply IH. exact Hout.
Qed.

(** X12.  All or nothing, whatever fails: if the script ends with an exception,
    be it from the set-up of the router, the input file, its decoding, a
    malformed record or a call of the router, no file was written and the
    files are as they were. *)
Theorem failed_run_writes_nothing (w : world X) (e : exn) :
  result (router_py O w) = Raise e ->
  files (after (router_py O w)) = files w
  /\ writes (emitted (router_py O w)) = [].
Proof.
  destruct (router_setup O (outside w)) as [[[] | e0] x] eqn:Hs.
  2: { unfold router_py, setup_router. step. rewrite Hs. cbn.
       intros _. split; reflexivity. }
  destruct (files w "queries.json") as [text |] eqn:Hfile.
  2: { unfold router_py, setup_router, read_file. step. rewrite Hs. cbn.
       rewrite Hfile. cbn. intros _. split; reflexivity. }
  destruct (json_loads O text) as [queries |] eqn:Hloads.
  2: { unfold router_py, setup_router, read_file, loads. step. rewrite Hs.
       cbn. rewrite Hfile, Hloads. cbn. intros _. split; reflexivity. }
  destruct (iterate queries) as [records | e1] eqn:Hiter.
  2: { unfold router_py, setup_router, read_file, loads. step. rewrite Hs.
       cbn. rewrite Hfile, Hloads, Hiter. cbn. intros _. split; reflexivity. }
  rewrite (router_py_run O w Hs Hfile Hloads Hiter). cbv zeta.
  set (w1 := World x (open_connections w) (files w)).
  destruct (build_report_run O records [] w1) as (Hfiles & Hwrites & _).
  destruct (result (build_report O records [] w1)) as [report | e2];
    cbn [result after emitted]; [discriminate |].
  intros _. split; [exact Hfiles |].
  change (writes (RouterSetup true :: ReadFile "queries.json" true :: ?l))
    with (writes l).
  now apply no_writes.
Qed.

(** X13.  A run that ends normally wrote one file, [report.json], once, as its
    last step; every other file is as it was. *)
Theorem successful_run_writes_report_only (w : world X) :
  result (router_py O w) = Ok tt ->
  exists report,
    writes (emitted (router_py O w))
    = [("report.json", json_dumps O (VList report))]
    /\ files (after (router_py O w)) "report.json"
       = Some (json_dumps O (VList report))
    /\ (forall p, p <> "report.json" ->
                  files (after (router_py O w)) p = files w p).
Proof.
  destruct (router_setup O (outside w)) as [[[] | e0] x] eqn:Hs.
  2: { unfold router_py, setup_router. step. rewrite Hs. cbn. discriminate. }
  destruct (files w "queries.json") as [text |] eqn:Hfile.
  2: { unfold router_py, setup_router, read_file. step. rewrite Hs. cbn.
       rewrite Hfile. cbn. discriminate. }
  destruct (json_loads O text) as [queries |] eqn:Hloads.
  2: { unfold router_py, setup_router, read_file, loads. step. rewrite Hs.
       cbn. rewrite Hfile, Hloads. cbn. discriminate. }
  destruct (iterate queries) as [records | e1] eqn:Hiter.
  2: { unfold router_py, setup_router, read_file, loads. step. rewrite Hs.
       cbn. rewrite Hfile, Hloads, Hiter. cbn. discriminate. }
  rewrite (router_py_run O w Hs Hfile Hloads Hiter). cbv zeta.
  set (w1 := World x (open_connections w) (files w)).
  destruct (build_report_run O records [] w1) as (Hfiles & Hwrites & _).
  destruct (result (build_report O records [] w1)) as [report | e2];
    cbn [result after emitted files]; [| discriminate].
  intros _. exists report. split; [| split].
  - change (writes (RouterSetup true :: ReadFile "queries.json" true :: ?l))
      with (writes l).
    rewrite writes_app, (no_writes _ Hwrites). reflexivity.
  - reflexivity.
  - intros p Hp. apply String.eqb_neq in Hp. rewrite Hp. now rewrite Hfiles.
Qed.

(** X14.  In a run that ends normally the router was called once per record, on
    the record's query, in the order of the input: the two lookups of
    [query] in a turn of the loop cost one call. *)
Theorem router_called_once_per_record (w : world X) (text : string)
  (queries : value) (records : list value) :
  files w "queries.json" = Some text ->
  json_loads O text = Some queries ->
  iterate queries = Ok records ->
  result (router_py O w) = Ok tt ->
  map Ok (classified (emitted (router_py O w)))
  = map (fun r => getitem r "query") records.
Proof.
  intros Hfile Hloads Hiter.
  destruct (router_setup O (outside w)) as [[[] | e0] x] eqn:Hs.
  2: { unfold router_py, setup_router. step. rewrite Hs. cbn. discriminate. }
  rewrite (router_py_run O w Hs Hfile Hloads Hiter). cbv zeta.
  set (w1 := World x (open_connections w) (files w)).
  pose proof (@build_report_calls records [] w1) as Hcalls.
  destruct (result (build_report O records [] w1)) as [report | e2];
    cbn [result after emitted]; [| discriminate].
  intros _.
  change (classified (RouterSetup true :: ReadFile "queries.json" true :: ?l))
    with (classified l).
  rewrite classified_app. cbn [classified flat_map]. rewrite List.app_nil_r.
  now apply (Hcalls report).
Qed.


(** X16.  Without the input file the script ends with [FileNotFoundError], but
    only after the router was set up: the set-up is the first thing the
    script does. *)
Theorem missing_input_file_raises (w : world X) (x : X) :
  router_setup O (outside w) = (Ok tt, x) ->
  files w "queries.json" = None ->
  router_py O w
  = Ran (Raise (FileNotFoundError "queries.json"))
      (World x (open_connections w) (files w))
      [ RouterSetup true; ReadFile "queries.json" false ].
Proof.
  intros Hs Hfile.
  unfold router_py, setup_router, read_file. step. rewrite Hs. cbn.
  rewrite Hfile. reflexivity.
Qed.

(** X17.  A first record that is not an object (the keys of a top-level object,
    the characters of a top-level string, a number in a list) ends the
    script with [TypeError] at its first lookup: the router is not
    called and no report is written. *)
Theorem non_object_record_raises (w : world X) (x : X) (text : string)
  (queries first : value) (rest : list value) :
  router_setup O (outside w) = (Ok tt, x) ->
  files w "queries.json" = Some text ->
  json_loads O text = Some queries ->
  iterate queries = Ok (first :: rest) ->
  (forall members, first <> VDict members) ->
  router_py O w
  = Ran (Raise TypeError)
      (World x (open_connections w) (files w))
      [ RouterSetup true; ReadFile "queries.json" true ].
Proof.
  intros Hs Hfile Hloads Hiter Hfirst.
  rewrite (router_py_run O w Hs Hfile Hloads Hiter). cbv zeta.
  cbn [build_report]. rewrite run_bind.
  unfold classify_record at 1 2 3. rewrite run_bind.
  destruct first as [| b | z | s | items | members | fl];
    try reflexivity.
  now destruct (Hfirst members).
Qed.

End BatchScript.

(** ** The report as a function of the input *)

Section ReportContents.

Context {X : Type} (O : Outside X).

Variable answer : value -> option string.

Lemma classify_record_answer (record : value) (w : world X) :
  answers O answer record ->
  result (classify_record O record w) = assignment answer record.
Proof.
  intros Hanswer. unfold classify_record, call_router, assignment.
  cbv beta iota zeta delta [bind ret raise lift result after emitted].
  destruct (getitem record "query") as [q | e] eqn:Hq; [| reflexivity].
  destruct (Hanswer q (outside w) Hq) as (x' & ->).
  destruct (getitem record "category") as [c | e]; reflexivity.
Qed.

Lemma build_report_result (records : list value) :
  Forall (answers O answer) records ->
  forall (report : list value) (w : world X),
    result (build_report O records report w)
    = outcome_map (List.app report) (assignments answer records).
Proof.
  induction 1 as [| record rest Hrecord _ IH]; intros report w.
  - cbn. now rewrite List.app_nil_r.
  - cbn [build_report assignments]. rewrite run_bind.
    rewrite (classify_record_answer w Hrecord).
    destruct (assignment answer record) as [a | e]; cbn [result];
      [| reflexivity].
    rewrite IH.
    destruct (assignments answer rest) as [l | e]; cbn; [| reflexivity].
    now rewrite <- List.app_assoc.
Qed.

(** X18.  With a router that answers the queries of the input, the report is the
    input mapped record by record: each assignment repeats the record's
    query and category and carries the route the router gave for that
    query.  The report written is the encoding of exactly that list. *)
Theorem report_is_input_mapped (w : world X) (x : X) (text : string)
  (queries : value) (records report : list value) :
  router_setup O (outside w) = (Ok tt, x) ->
  files w "queries.json" = Some text ->
  json_loads O text = Some queries ->
  iterate queries = Ok records ->
  Forall (answers O answer) records ->
  assignments answer records = Ok report ->
  result (router_py O w) = Ok tt
  /\ files (after (router_py O w)) "report.json"
     = Some (json_dumps O (VList report))
  /\ List.length report = List.length records
  /\ Forall2 (fun record a => assignment answer record = Ok a) records report.
Proof.
  intros Hs Hfile Hloads Hiter Hanswers Hreport.
  rewrite (router_py_run O w Hs Hfile Hloads Hiter). cbv zeta.
  rewrite (build_report_result Hanswers), Hreport. cbn.
  split; [reflexivity |]. split; [reflexivity |].
  clear - Hreport. revert report Hreport.
  induction records as [| record rest IH]; intros report Hreport.
  - injection Hreport as <-. split; [reflexivity | constructor].
  - cbn [assignments] in Hreport.
    destruct (assignment answer record) as [a | e] eqn:Ha; [| discriminate].
    destruct (assignments answer rest) as [l | e]; [| discriminate].
    injection Hreport as <-. destruct (IH l eq_refl) as (Hlen & Hall).
    cbn [List.length]. split; [now rewrite Hlen | now constructor].
Qed.

End ReportContents.

(** ** The shape of the prompt *)

Lemma ends_here (t : string) : ends_with t t.
Proof. now exists EmptyString. Qed.

Lemma ends_cons (t s : string) (c : ascii) :
  ends_with t s -> ends_with t (String c s).
Proof. intros (pre & ->). now exists (String c pre). Qed.

Lemma ends_app (t a s : string) : ends_with t s -> ends_with t (a ++ s).
Proof.
  intros (pre & ->). exists (a ++ pre). now rewrite string_app_assoc.
Qed.

Ltac find_end :=
  repeat first [apply ends_here | apply ends_cons | apply ends_app].

Lemma starts_nil (s : string) : exists post, s = EmptyString ++ post.
Proof. now exists s. Qed.

Lemma starts_cons (c : ascii) (n s : string) :
  (exists post, s = n ++ post) ->
  exists post, String c s = String c n ++ post.
Proof. intros (post & ->). now exists post. Qed.

Lemma occurs_start (n s : string) :
  (exists post, s = n ++ post) -> occurs_in n s.
Proof. intros (post & ->). now exists EmptyString, post. Qed.

(** Finds a needle that is written out, character by character. *)
Ltac find_text :=
  repeat first
    [ apply occurs_start;
      solve [repeat first [apply starts_nil | apply starts_cons]]
    | apply occurs_cons
    | apply occurs_app ].

Section PromptShape.

Context {X : Type} (O : Outside X).

(** X19.  Whatever the four inputs, the prompt shows the output format with
    single braces ([{{] and [}}] of the template are escapes), holds the
    texts of the column descriptors and of the sample as [str()] gives
    them, and ends with the question on a line of its own: text with
    braces in the inputs is inserted as it is and never read as a field. *)
Theorem prompt_shape (tn : string) (ci : option (list column_descriptor))
  (ts : list row) (q : string) :
  exists out,
    build_prompt O tn ci ts q = Ok out
    /\ occurs_in output_format_line out
    /\ occurs_in (str_of_column_info O ci) out
    /\ occurs_in (str_of_rows O ts) out
    /\ ends_with (q ++ nl) out.
Proof.
  eexists. split; [unfold build_prompt; vm_compute; reflexivity |].
  split.
  { let n := eval vm_compute in output_format_line in
    change output_format_line with n.
    find_text. }
  split; [find_occurrence |].
  split; [find_occurrence | find_end].
Qed.

End PromptShape.

(** ** Reading back the report of a run *)

Section ReadBack.

Context {X : Type} (O : Outside X).

Lemma text_records_assigned (answer : value -> option string)
  (records : list value) :
  (forall q name, answer q = Some name -> Utf8.scalar_text name = true) ->
  Forall (text_record Utf8.scalar_text) records ->
  forall report,
    assignments answer records = Ok report ->
    Forall (route_assignment Utf8.scalar_text) report.
Proof.
  intros Hnames.
  induction 1 as [| record rest (q & c & Hq & Hc & Hqt & Hct) _ IH];
    intros report; cbn [assignments].
  - intros H. injection H as <-. constructor.
  - unfold assignment. rewrite Hq, Hc.
    destruct (assignments answer rest) as [l |]; [| discriminate].
    intros H. injection H as <-. constructor; [| now apply IH].
    exists q, c, (answer (VStr q)). repeat split; try assumption.
    destruct (answer (VStr q)) as [name |] eqn:Hname; [| exact I].
    exact (Hnames _ _ Hname).
Qed.

(** X20.  The report of a run reads back: with a [json] library that is
    the [Json] module wherever that answers and a router that answers the
    queries of the input with route names that are text, a run over
    records whose query and category are text without surrogate code
    points leaves a file [report.json] that decodes to the list of
    assignments of the input records. *)
Theorem report_of_a_run_reads_back (answer : value -> option string)
  (w : world X) (x : X) (text : string) (queries : value)
  (records report : list value) :
  json_as_modelled O ->
  router_setup O (outside w) = (Ok tt, x) ->
  files w "queries.json" = Some text ->
  json_loads O text = Some queries ->
  iterate queries = Ok records ->
  Forall (text_record Utf8.scalar_text) records ->
  Forall (answers O answer) records ->
  (forall q name, answer q = Some name -> Utf8.scalar_text name = true) ->
  assignments answer records = Ok report ->
  result ((router_py O ;;
           content <- read_file "report.json" ;;
           lift (loads O (Some content))) w)
  = Ok (VList report).
Proof.
  intros Hjson Hs Hfile Hloads Hiter Hrecords Hanswers Hnames Hreport.
  pose proof (@text_records_assigned answer records Hnames Hrecords report
                Hreport) as Hshape.
  rewrite run_bind.
  rewrite (router_py_run O w Hs Hfile Hloads Hiter). cbv zeta.
  rewrite (build_report_result Hanswers), Hreport.
  cbn [outcome_map List.app result after emitted].
  unfold read_file, loads. step. cbn [files].
  rewrite String.eqb_refl, (report_reads_back Hjson Hshape). reflexivity.
Qed.

End ReadBack.

(** ** The further properties in the reference world *)

Lemma get_table_sample_returns_fetched_rows_witness :
  get_table_sample Reference.plain "data/data.db" "countries_data"
    Reference.start
  = Ran (Ok Reference.countries_rows)
      (World (Reference.State []) 0 Reference.no_files)
      [ Connect "data/data.db" true; Cursor true;
        Execute "SELECT * FROM countries_data LIMIT 3" true;
        Fetchall true; Close ].
Proof.
  apply (@get_table_sample_returns_fetched_rows _ Reference.plain
           "data/data.db" "countries_data" Reference.start
           (Reference.State []) (Reference.State [])
           (Reference.State Reference.countries_rows) (Reference.State [])
           Reference.countries_rows);
    reflexivity.
Defined.

Lemma nonempty_sample_means_closed_witness :
  closed (emitted (get_table_sample Reference.plain "data/data.db"
                     "countries_data" Reference.start)) = true
  /\ open_connections
       (after (get_table_sample Reference.plain "data/data.db"
                 "countries_data" Reference.start))
     = 0.
Proof.
  apply (@nonempty_sample_means_closed _ Reference.plain "data/data.db"
           "countries_data" Reference.start Reference.countries_rows);
    [reflexivity | discriminate].
Defined.

Lemma get_column_info_first_three_fields_witness :
  (forall details,
      result (get_column_info Reference.plain "data/data.db"
                "countries_data" Reference.start) = Ok (Some details) ->
      Forall2 describes Reference.countries_schema details)
  /\ (Forall (fun r => 3 <= List.length r) Reference.countries_schema ->
      exists details,
        result (get_column_info Reference.plain "data/data.db"
                  "countries_data" Reference.start) = Ok (Some details)).
Proof.
  apply (@get_column_info_first_three_fields _ Reference.plain
           "data/data.db" "countries_data" Reference.start
           (Reference.State []) (Reference.State [])
           (Reference.State Reference.countries_schema) (Reference.State [])
           Reference.countries_schema);
    reflexivity.
Defined.

Lemma executor_contains_sqlite_errors_witness :
  result (run_sql_query Reference.plain (VStr "SELECT nothing")
            Reference.start)
  <> Raise (SqliteError "no such table").
Proof.
  apply (@executor_contains_sqlite_errors _ Reference.plain
           (VStr "SELECT nothing") Reference.start
           (SqliteError "no such table")).
  reflexivity.
Defined.

Lemma reply_query_runs_verbatim_witness :
  handle_response Reference.plain (Some (Reference.reply_with "SELECT 1"))
    Reference.start
  = Ran (Ok (VStr "SELECT 1"))
      (World (Reference.State []) 0 Reference.no_files)
      [ Print (PResponse (Some (Reference.reply_with "SELECT 1")));
        Connect "data/data.db" true; Cursor true; Execute "SELECT 1" true;
        Fetchall true; Print PResultHeader; Print (PRow [SqlInt 1]); Close ].
Proof.
  apply (@reply_query_runs_verbatim _ Reference.plain
           (Reference.reply_with "SELECT 1") "SELECT 1"
           [("sql_query", VStr "SELECT 1")] Reference.start
           (Reference.State []) (Reference.State [])
           (Reference.State [[SqlInt 1]]) (Reference.State [])
           [[SqlInt 1]]);
    first [vm_compute; reflexivity | discriminate].
Defined.

Lemma non_text_query_escapes_witness :
  (exists e,
      result (run_sql_query Reference.plain (VInt 5) Reference.start) = Raise e
      /\ is_sqlite_error e = false)
  /\ executions
       (emitted (run_sql_query Reference.plain (VInt 5) Reference.start)) = []
  /\ open_connections
       (after (run_sql_query Reference.plain (VInt 5) Reference.start))
     = 1.
Proof.
  apply (@non_text_query_escapes _ Reference.plain (VInt 5) Reference.start
           (Reference.State []) (Reference.State []));
    first [reflexivity | intros s; discriminate].
Defined.

Lemma extraction_failures_witness :
  (Some "{}" = None /\ KeyError "sql_query" = TypeError)
  \/ (exists text v,
        Some "{}" = Some text
        /\ json_loads Reference.plain text = Some v
        /\ has_key v "sql_query" = false
        /\ (KeyError "sql_query" = KeyError "sql_query"
            \/ KeyError "sql_query" = TypeError))
  \/ (exists text,
        Some "{}" = Some text
        /\ json_loads Reference.plain text = None
        /\ KeyError "sql_query" = json_loads_error Reference.plain text
        /\ is_json_decode_error (KeyError "sql_query") = false).
Proof.
  apply (proj2 (@extraction_failures _ Reference.plain Reference.start)
           (Some "{}") (KeyError "sql_query")).
  reflexivity.
Defined.

Lemma unknown_topic_raises_witness :
  nl2sql_converter Reference.plain "animals" Reference.start
  = Ran (Raise (NameError "table_name")) Reference.start [].
Proof.
  apply (@unknown_topic_raises _ Reference.plain "animals" Reference.start);
    discriminate.
Defined.

Lemma unreachable_database_still_asks_model_witness :
  exists prompt ok msg1 msg2 rest,
    build_prompt Reference.offline "countries_data" None []
      "How many habitants does Egypt have?" = Ok prompt
    /\ emitted (nl2sql_converter Reference.offline TOPIC_TO_TEST
                  Reference.start)
       = Connect db_path false :: Print (PSqliteError (SqliteError msg1))
           :: Connect db_path false :: Print (PSqliteError (SqliteError msg2))
           :: Completion prompt ok :: rest.
Proof.
  apply (@unreachable_database_still_asks_model _ Reference.offline
           Reference.start).
  intros x. eexists. eexists. reflexivity.
Defined.

Lemma failed_run_writes_nothing_witness :
  files (after (router_py Reference.failing Reference.batch_start))
  = files Reference.batch_start
  /\ writes (emitted (router_py Reference.failing Reference.batch_start)) = [].
Proof.
  apply (@failed_run_writes_nothing _ Reference.failing Reference.batch_start
           (OtherException "APIConnectionError")).
  vm_compute. reflexivity.
Defined.

Lemma successful_run_writes_report_only_witness :
  exists report,
    writes (emitted (router_py Reference.plain Reference.batch_start))
    = [("report.json", json_dumps Reference.plain (VList report))]
    /\ files (after (router_py Reference.plain Reference.batch_start))
         "report.json"
       = Some (json_dumps Reference.plain (VList report))
    /\ (forall p, p <> "report.json" ->
                  files (after (router_py Reference.plain
                                  Reference.batch_start)) p
                  = files Reference.batch_start p).
Proof.
  apply (@successful_run_writes_report_only _ Reference.plain
           Reference.batch_start).
  vm_compute. reflexivity.
Defined.

Lemma router_called_once_per_record_witness :
  map Ok (classified (emitted (router_py Reference.plain
                                 Reference.batch_start)))
  = map (fun r => getitem r "query") Reference.queries.
Proof.
  apply (@router_called_once_per_record _ Reference.plain
           Reference.batch_start Reference.queries_json
           (VList Reference.queries) Reference.queries);
    vm_compute; reflexivity.
Defined.


Lemma missing_input_file_raises_witness :
  router_py Reference.plain Reference.start
  = Ran (Raise (FileNotFoundError "queries.json"))
      (World (Reference.State []) 0 Reference.no_files)
      [ RouterSetup true; ReadFile "queries.json" false ].
Proof.
  apply (@missing_input_file_raises _ Reference.plain Reference.start
           (Reference.State []));
    reflexivity.
Defined.

Lemma non_object_record_raises_witness :
  router_py Reference.plain (Reference.holding "[1]")
  = Ran (Raise TypeError)
      (World (Reference.State []) 0 (files (Reference.holding "[1]")))
      [ RouterSetup true; ReadFile "queries.json" true ].
Proof.
  apply (@non_object_record_raises _ Reference.plain
           (Reference.holding "[1]") (Reference.State []) "[1]"
           (VList [VInt 1]) (VInt 1) []);
    first [reflexivity | intros members; discriminate].
Defined.

Lemma report_is_input_mapped_witness :
  result (router_py Reference.plain Reference.batch_start) = Ok tt
  /\ files (after (router_py Reference.plain Reference.batch_start))
       "report.json"
     = Some (json_dumps Reference.plain (VList Reference.report))
  /\ List.length Reference.report = List.length Reference.queries
  /\ Forall2 (fun record a => assignment Reference.answer_of record = Ok a)
       Reference.queries Reference.report.
Proof.
  apply (@report_is_input_mapped _ Reference.plain Reference.answer_of
           Reference.batch_start (Reference.State [])
           Reference.queries_json (VList Reference.queries)
           Reference.queries Reference.report);
    try (vm_compute; reflexivity).
  constructor; [| constructor; [| constructor]];
    intros q x H; injection H as <-; eexists; reflexivity.
Defined.

Lemma report_of_a_run_reads_back_witness :
  result ((router_py Reference.plain ;;
           content <- read_file "report.json" ;;
           lift (loads Reference.plain (Some content)))
            Reference.batch_start)
  = Ok (VList Reference.report).
Proof.
  apply (@report_of_a_run_reads_back _ Reference.plain Reference.answer_of
           Reference.batch_start (Reference.State [])
           Reference.queries_json (VList Reference.queries)
           Reference.queries Reference.report).
  - apply reference_json_as_modelled.
  - reflexivity.
  - reflexivity.
  - vm_compute. reflexivity.
  - reflexivity.
  - constructor; [| constructor; [| constructor]].
    + exists "engine", "cars". repeat split.
    + exists "tallest mountain", "countries". repeat split.
  - constructor; [| constructor; [| constructor]];
      intros q x H; injection H as <-; eexists; reflexivity.
  - intros [| b | z | q | items | members | fl] name; try discriminate.
    unfold Reference.answer_of, Router.classify, Reference.routes.
    cbn [Router.nearest].
    repeat (match goal with
            | |- context [if ?b then _ else _] => destruct b
            end; cbv beta iota);
      try discriminate; intros H; injection H as <-; reflexivity.
  - vm_compute. reflexivity.
Defined.
